(** * Poll server actions: ownership, CSRF, vote validation

    A shallow embedding of [app/lib/actions/poll-actions.ts] (the server
    actions [createPoll], [getUserPolls], [getPollById], [submitVote],
    [deletePoll], [updatePoll]) over an explicit model of what the actions
    talk to: the request's cookie store and form payload, the Supabase
    auth call, and the two tables [polls] and [votes].

    Every action is a function of the request environment and the current
    world (tables plus the list of revalidated paths); mutating actions
    return the new world next to their result. *)

From Stdlib Require Import List String ZArith Lia Bool Permutation Sorted.
From Stdlib Require QArith_base.
Import ListNotations.
Local Open Scope string_scope.

(** ** JavaScript values the actions test for truthiness *)

Module Js.

(** [Boolean(s)] on a string: only the empty string is falsy. *)
Definition truthy (s : string) : bool := negb (s =? "").

(** [Boolean(v)] on [string | null | undefined]. *)
Definition truthy_opt (v : option string) : bool :=
  match v with
  | Some s => truthy s
  | None => false
  end.

(** [a !== b] on two strings. *)
Definition strict_neq (a b : string) : bool := negb (a =? b).

End Js.

(** ** Request payload and cookies *)

(** [FormData]: an ordered multi-map of text entries.  The actions cast every
    value they read to [string], and the forms of the application submit
    text inputs only, so entries are strings. *)
Module FormData.

Definition t := list (string * string).

(** [formData.getAll(name)] *)
Definition getAll (fd : t) (name : string) : list string :=
  map snd (filter (fun e => fst e =? name) fd).

(** [formData.get(name)]: the first value, or [null]. *)
Definition get (fd : t) (name : string) : option string :=
  hd_error (getAll fd name).

End FormData.

(** The store returned by [cookies()] of [next/headers]. *)
Module Cookies.

Definition t := list (string * string).

(** [store.get(name)?.value] *)
Fixpoint get_value (store : t) (name : string) : option string :=
  match store with
  | [] => None
  | (n, v) :: rest => if n =? name then Some v else get_value rest name
  end.

End Cookies.

(** ** The Supabase client, as the actions use it *)

(** An error object of the client: the actions read [code] and [message]. *)
Record BackendError := mkError { code : string; message : string }.

(** [{ data, error }], the shape of every query response. *)
Record Response (A : Type) := mkResponse {
  data : option A;
  error : option BackendError
}.
Arguments mkResponse {A}.
Arguments data {A}.
Arguments error {A}.

(** A JavaScript [number], as the actions use one: compared with integers
    and stored.  A finite value is a rational (every finite double is one);
    [NaN] and the two infinities are values of their own. *)
Module JsNumber.

Inductive t :=
| Finite (q : QArith_base.Q)
| NaN
| Infinity
| NegInfinity.

(** An integer, and a length such as [options.length], as numbers. *)
Definition of_Z (z : Z) : t := Finite (QArith_base.inject_Z z).
Definition of_nat (n : nat) : t := of_Z (Z.of_nat n).

Definition is_NaN (a : t) : bool :=
  match a with
  | NaN => true
  | _ => false
  end.

(** The order of the values that are not [NaN]. *)
Definition le_ordered (a b : t) : bool :=
  match a, b with
  | NegInfinity, _ => true
  | _, Infinity => true
  | Finite p, Finite q => QArith_base.Qle_bool p q
  | _, _ => false
  end.

(** [a < b] and [a >= b]: both false as soon as one side is [NaN]. *)
Definition lt (a b : t) : bool :=
  negb (is_NaN a) && negb (is_NaN b) && negb (le_ordered b a).

Definition ge (a b : t) : bool :=
  negb (is_NaN a) && negb (is_NaN b) && le_ordered b a.

End JsNumber.

Module User.
Record t := mk { id : string }.
End User.

Module Poll.
(** A row of [polls].  [options] is [None] when the stored value is not an
    array (the case [submitVote] guards with [Array.isArray]). *)
Record t := mk {
  id : string;
  user_id : string;
  question : string;
  options : option (list string);
  created_at : Z
}.
End Poll.

Module Vote.
Record t := mk {
  id : string;
  poll_id : string;
  user_id : string;
  option_index : JsNumber.t
}.
End Vote.

(** The storage calls the actions make, one tag per call site. *)
Inductive StorageCall :=
| PollsInsert          (* createPoll *)
| PollsSelectOwned     (* getUserPolls *)
| PollsSelectById      (* getPollById *)
| PollsSelectOptions   (* submitVote, first query *)
| VotesSelectExisting  (* submitVote, second query *)
| VotesInsert          (* submitVote, insert *)
| PollsDelete          (* deletePoll *)
| PollsUpdate.         (* updatePoll *)

(** What a request sees around it.
    - [cookie_store]: [None] when [next/headers] is unavailable, so that
      [cookies()] throws;
    - [auth_user], [auth_error]: the answer of [supabase.auth.getUser()];
    - [fault c]: the infrastructure failure, if any, that storage call [c]
      meets in this request; a failed call has no effect on the tables;
    - [new_id], [now]: the values the column defaults give a row inserted
      by this request. *)
Record Env := mkEnv {
  cookie_store : option Cookies.t;
  auth_user : option User.t;
  auth_error : option BackendError;
  fault : StorageCall -> option BackendError;
  new_id : string;
  now : Z
}.

(** The tables, and the paths passed to [revalidatePath]. *)
Record World := mkWorld {
  polls : list Poll.t;
  votes : list Vote.t;
  revalidated : list string
}.

Module Supabase.

Definition ok {A} (a : A) : Response A := mkResponse (Some a) None.
Definition failed {A} (e : BackendError) : Response A := mkResponse None (Some e).
Definition empty {A} : Response A := mkResponse None None.

(** PostgREST's answer when a single object is requested and the result
    does not hold exactly one row. *)
Definition PGRST116 : BackendError :=
  mkError "PGRST116" "JSON object requested, multiple (or no) rows returned".

(** [.single()] *)
Definition single {A} (rows : list A) : Response A :=
  match rows with
  | [r] => ok r
  | _ => failed PGRST116
  end.

(** [.maybeSingle()]: no row is not an error. *)
Definition maybeSingle {A} (rows : list A) : Response A :=
  match rows with
  | [] => empty
  | [r] => ok r
  | _ => failed PGRST116
  end.

(** A call that meets a fault answers with it; otherwise with [r]. *)
Definition answer {A} (env : Env) (c : StorageCall) (r : Response A) : Response A :=
  match fault env c with
  | Some e => failed e
  | None => r
  end.

(** [.order("created_at", { ascending: false })] *)
Fixpoint insert_desc (p : Poll.t) (l : list Poll.t) : list Poll.t :=
  match l with
  | [] => [p]
  | q :: l' =>
      if (Poll.created_at q <=? Poll.created_at p)%Z
      then p :: l
      else q :: insert_desc p l'
  end.

Definition order_created_at_desc (l : list Poll.t) : list Poll.t :=
  fold_right insert_desc [] l.

(** The row predicates of the queries. *)
Definition poll_is (id : string) (p : Poll.t) : bool := Poll.id p =? id.
Definition poll_owned_by (uid : string) (p : Poll.t) : bool := Poll.user_id p =? uid.
Definition poll_is_owned (id uid : string) (p : Poll.t) : bool :=
  poll_is id p && poll_owned_by uid p.
Definition vote_of (pollId uid : string) (v : Vote.t) : bool :=
  (Vote.poll_id v =? pollId) && (Vote.user_id v =? uid).

(** [from("polls").insert([{ user_id, question, options }])] *)
Definition polls_insert (env : Env) (w : World) (uid question : string)
    (options : list string) : option BackendError * World :=
  match fault env PollsInsert with
  | Some e => (Some e, w)
  | None =>
      (None,
       mkWorld
         (polls w ++ [Poll.mk (new_id env) uid question (Some options) (now env)])
         (votes w) (revalidated w))
  end.

(** [from("polls").select("*").eq("user_id", uid).order("created_at", ...)] *)
Definition polls_select_owned (env : Env) (w : World) (uid : string)
    : Response (list Poll.t) :=
  answer env PollsSelectOwned
    (ok (order_created_at_desc (filter (poll_owned_by uid) (polls w)))).

(** [from('polls').select('*').eq('id', id).eq('user_id', uid).single()] *)
Definition polls_select_by_id (env : Env) (w : World) (id uid : string)
    : Response Poll.t :=
  answer env PollsSelectById (single (filter (poll_is_owned id uid) (polls w))).

(** [from('polls').select('options').eq('id', pollId).single()] *)
Definition polls_select_options (env : Env) (w : World) (pollId : string)
    : Response Poll.t :=
  answer env PollsSelectOptions (single (filter (poll_is pollId) (polls w))).

(** [from('votes').select('id').eq('poll_id', pollId).eq('user_id', uid).maybeSingle()] *)
Definition votes_select_existing (env : Env) (w : World) (pollId uid : string)
    : Response Vote.t :=
  answer env VotesSelectExisting (maybeSingle (filter (vote_of pollId uid) (votes w))).

(** [from('votes').insert([{ poll_id, user_id, option_index }])] *)
Definition votes_insert (env : Env) (w : World) (pollId uid : string)
    (optionIndex : JsNumber.t) : option BackendError * World :=
  match fault env VotesInsert with
  | Some e => (Some e, w)
  | None =>
      (None,
       mkWorld (polls w)
         (votes w ++ [Vote.mk (new_id env) pollId uid optionIndex])
         (revalidated w))
  end.

(** [from('polls').delete().eq('id', id).eq('user_id', uid)] *)
Definition polls_delete (env : Env) (w : World) (id uid : string)
    : option BackendError * World :=
  match fault env PollsDelete with
  | Some e => (Some e, w)
  | None =>
      (None,
       mkWorld (filter (fun p => negb (poll_is_owned id uid p)) (polls w))
         (votes w) (revalidated w))
  end.

(** [from("polls").update({ question, options }).eq("id", id).eq("user_id", uid)] *)
Definition polls_update (env : Env) (w : World) (id uid question : string)
    (options : list string) : option BackendError * World :=
  match fault env PollsUpdate with
  | Some e => (Some e, w)
  | None =>
      (None,
       mkWorld
         (map (fun p =>
                 if poll_is_owned id uid p
                 then Poll.mk (Poll.id p) (Poll.user_id p) question
                        (Some options) (Poll.created_at p)
                 else p)
              (polls w))
         (votes w) (revalidated w))
  end.

End Supabase.

(** [revalidatePath(path)] *)
Definition revalidatePath (path : string) (w : World) : World :=
  mkWorld (polls w) (votes w) (revalidated w ++ [path]).

(** ** The server actions *)

(** [{ error }], what the mutating actions return. *)
Module Action.
Record t := mk { error : option string }.
Definition fail (msg : string) : t := mk (Some msg).
Definition done : t := mk None.
End Action.

(** [{ polls, error }] of [getUserPolls]. *)
Module UserPolls.
Record t := mk { polls : list Poll.t; error : option string }.
End UserPolls.

(** [{ poll, error }] of [getPollById]. *)
Module PollById.
Record t := mk { poll : option Poll.t; error : option string }.
End PollById.

Module PollActions.

Import Supabase.

(** The double-submit check that opens [createPoll] and [updatePoll]:
    [Some msg] when the action returns [{ error: msg }] at once. *)
Definition csrf_guard (env : Env) (formData : FormData.t) : option string :=
  match cookie_store env with
  | None => Some "CSRF validation failed."
  | Some store =>
      let csrfCookie := Cookies.get_value store "csrfToken" in
      let csrfField := FormData.get formData "csrfToken" in
      match csrfCookie, csrfField with
      | Some c, Some f =>
          if negb (Js.truthy c) || negb (Js.truthy f) || Js.strict_neq c f
          then Some "Invalid CSRF token."
          else None
      | _, _ => Some "Invalid CSRF token."
      end
  end.

(** [formData.get("question") as string], read after the guard
    [!question] has excluded [null]. *)
Definition as_string (v : option string) : string :=
  match v with
  | Some s => s
  | None => ""
  end.

Definition createPoll (env : Env) (formData : FormData.t) (w : World)
    : Action.t * World :=
  match csrf_guard env formData with
  | Some msg => (Action.fail msg, w)
  | None =>
      let question := FormData.get formData "question" in
      let options := filter Js.truthy (FormData.getAll formData "options") in
      if negb (Js.truthy_opt question) || (List.length options <? 2)%nat
      then (Action.fail "Please provide a question and at least two options.", w)
      else
        match auth_error env with
        | Some userError => (Action.fail (message userError), w)
        | None =>
            match auth_user env with
            | None => (Action.fail "You must be logged in to create a poll.", w)
            | Some user =>
                let '(error, w') :=
                  polls_insert env w (User.id user) (as_string question) options in
                match error with
                | Some e => (Action.fail (message e), w')
                | None => (Action.done, revalidatePath "/polls" w')
                end
            end
        end
  end.

Definition getUserPolls (env : Env) (w : World) : UserPolls.t :=
  match auth_user env with
  | None => UserPolls.mk [] (Some "Not authenticated")
  | Some user =>
      let r := polls_select_owned env w (User.id user) in
      match error r with
      | Some e => UserPolls.mk [] (Some (message e))
      | None =>
          UserPolls.mk (match data r with Some rows => rows | None => [] end) None
      end
  end.

Definition getPollById (env : Env) (w : World) (id : string) : PollById.t :=
  match auth_user env with
  | None => PollById.mk None (Some "Not authenticated")
  | Some user =>
      let r := polls_select_by_id env w id (User.id user) in
      match error r with
      | Some e => PollById.mk None (Some (message e))
      | None => PollById.mk (data r) None
      end
  end.

(** [existingErr && existingErr.code !== 'PGRST116'] *)
Definition lookup_abort (existingErr : option BackendError) : option BackendError :=
  match existingErr with
  | Some e => if Js.strict_neq (code e) "PGRST116" then Some e else None
  | None => None
  end.

(** [optionIndex] is a [number]: whatever number the caller sends. *)
Definition submitVote (env : Env) (pollId : string) (optionIndex : JsNumber.t)
    (w : World)
    : Action.t * World :=
  match auth_user env with
  | None => (Action.fail "You must be logged in to vote.", w)
  | Some user =>
      let r := polls_select_options env w pollId in
      match error r with
      | Some pollErr => (Action.fail (message pollErr), w)
      | None =>
          match match data r with Some poll => Poll.options poll | None => None end with
          | None => (Action.fail "Invalid poll options.", w)
          | Some options =>
              if JsNumber.lt optionIndex (JsNumber.of_Z 0)
                 || JsNumber.ge optionIndex (JsNumber.of_nat (List.length options))
              then (Action.fail "Invalid option selected.", w)
              else
                let existing := votes_select_existing env w pollId (User.id user) in
                match lookup_abort (error existing) with
                | Some existingErr => (Action.fail (message existingErr), w)
                | None =>
                    match data existing with
                    | Some _ => (Action.fail "You have already voted on this poll.", w)
                    | None =>
                        let '(error, w') :=
                          votes_insert env w pollId (User.id user) optionIndex in
                        match error with
                        | Some e => (Action.fail (message e), w')
                        | None => (Action.done, w')
                        end
                    end
                end
          end
      end
  end.

Definition deletePoll (env : Env) (id : string) (w : World) : Action.t * World :=
  match auth_user env with
  | None => (Action.fail "Not authenticated", w)
  | Some user =>
      let '(error, w') := polls_delete env w id (User.id user) in
      match error with
      | Some e => (Action.fail (message e), w')
      | None => (Action.done, revalidatePath "/polls" w')
      end
  end.

Definition updatePoll (env : Env) (pollId : string) (formData : FormData.t)
    (w : World) : Action.t * World :=
  match csrf_guard env formData with
  | Some msg => (Action.fail msg, w)
  | None =>
      let question := FormData.get formData "question" in
      let options := filter Js.truthy (FormData.getAll formData "options") in
      if negb (Js.truthy_opt question) || (List.length options <? 2)%nat
      then (Action.fail "Please provide a question and at least two options.", w)
      else
        match auth_error env with
        | Some userError => (Action.fail (message userError), w)
        | None =>
            match auth_user env with
            | None => (Action.fail "You must be logged in to update a poll.", w)
            | Some user =>
                let '(error, w') :=
                  polls_update env w pollId (User.id user) (as_string question) options in
                match error with
                | Some e => (Action.fail (message e), w')
                | None => (Action.done, w')
                end
            end
        end
  end.

End PollActions.

(** ** Fixtures: two users, a small world, quiet environments *)

Module Fixtures.

Definition alice : User.t := User.mk "user-alice".
Definition bob : User.t := User.mk "user-bob".

Definition cats_dogs : Poll.t :=
  Poll.mk "poll-1" "user-alice" "Cats or dogs?" (Some ["Cats"; "Dogs"]) 100.
Definition tea_coffee : Poll.t :=
  Poll.mk "poll-2" "user-bob" "Tea or coffee?" (Some ["Tea"; "Coffee"]) 200.
Definition red_blue : Poll.t :=
  Poll.mk "poll-3" "user-alice" "Red or blue?" (Some ["Red"; "Blue"; "Green"]) 300.

Definition world0 : World := mkWorld [cats_dogs; tea_coffee; red_blue] [] [].

Definition no_fault : StorageCall -> option BackendError := fun _ => None.

(** A signed-in request whose cookie store holds the token [tok]. *)
Definition signed_in (u : User.t) (tok : string) : Env :=
  mkEnv (Some [("csrfToken", tok)]) (Some u) None no_fault "row-new" 400.

(** A signed-in request that carries no [csrfToken] cookie at all. *)
Definition signed_in_no_cookie (u : User.t) : Env :=
  mkEnv (Some []) (Some u) None no_fault "row-new" 400.

(** A request without a session. *)
Definition anonymous : Env :=
  mkEnv (Some [("csrfToken", "tok")]) None None no_fault "row-new" 400.

(** A signed-in request in which every storage call fails with [e]. *)
Definition storage_down (u : User.t) (e : BackendError) : Env :=
  mkEnv (Some [("csrfToken", "tok")]) (Some u) None (fun _ => Some e) "row-new" 400.

(** A request whose identity provider fails with [e]. *)
Definition auth_down (e : BackendError) : Env :=
  mkEnv (Some [("csrfToken", "tok")]) None (Some e) no_fault "row-new" 400.

(** A backend failure whose text names server internals. *)
Definition pg_denied : BackendError :=
  mkError "42501" "permission denied for table polls (role anon at db.internal:5432)".

(** A failure of the identity provider. *)
Definition auth_unreachable : BackendError :=
  mkError "unexpected_failure" "fetch failed: connect ECONNREFUSED 10.0.0.7:9999".

(** A signed-in request whose duplicate-vote lookup fails with [e]. *)
Definition lookup_down (u : User.t) (e : BackendError) : Env :=
  mkEnv (Some [("csrfToken", "tok")]) (Some u) None
    (fun c => match c with VotesSelectExisting => Some e | _ => None end)
    "row-new" 400.

(** The lookup timed out in the database. *)
Definition pg_timeout : BackendError :=
  mkError "57014" "canceling statement due to statement timeout".

Definition poll_form (tok question : string) (options : list string) : FormData.t :=
  ("csrfToken", tok) :: ("question", question)
    :: map (fun o => ("options", o)) options.

End Fixtures.

(** ** Vocabulary of the properties *)

(** The request carries a usable token: a non-empty cookie value and an
    equal payload field. *)
Definition csrf_valid (env : Env) (formData : FormData.t) : Prop :=
  exists store tok,
    cookie_store env = Some store /\
    Cookies.get_value store "csrfToken" = Some tok /\
    FormData.get formData "csrfToken" = Some tok /\
    tok <> "".

(** No storage call of the request meets an infrastructure failure. *)
Definition storage_up (env : Env) : Prop := forall c, fault env c = None.

(** The rows of [polls] that [uid] owns, in table order. *)
Definition owned_by (uid : string) (w : World) : list Poll.t :=
  filter (Supabase.poll_owned_by uid) (polls w).

(** The rows of [polls] with identifier [id]. *)
Definition polls_with_id (id : string) (w : World) : list Poll.t :=
  filter (Supabase.poll_is id) (polls w).

(** The vote records of [uid] on [pollId]. *)
Definition votes_of (pollId uid : string) (w : World) : list Vote.t :=
  filter (Supabase.vote_of pollId uid) (votes w).

(** Newest first. *)
Definition newer_or_same (p q : Poll.t) : Prop :=
  (Poll.created_at q <= Poll.created_at p)%Z.

(** The index passes the bounds check of [submitVote] on a poll of [n]
    options: neither [optionIndex < 0] nor [optionIndex >= n] holds. *)
Definition passes_bounds (optionIndex : JsNumber.t) (n : nat) : Prop :=
  JsNumber.lt optionIndex (JsNumber.of_Z 0) = false /\
  JsNumber.ge optionIndex (JsNumber.of_nat n) = false.

(** The action answered with an error rather than an acknowledgment. *)
Definition is_error (r : Action.t) : Prop := Action.error r <> None.

(** At most one vote record per (poll, voter) pair. *)
Definition votes_unique (w : World) : Prop :=
  forall pollId uid, (List.length (votes_of pollId uid w) <= 1)%nat.

(** The option entries of a form that survive [.filter(Boolean)]. *)
Definition kept_options (formData : FormData.t) : list string :=
  filter Js.truthy (FormData.getAll formData "options").

(** The rows the combined predicate of [getPollById], [deletePoll] and
    [updatePoll] selects: identifier [id] and owner [uid]. *)
Definition polls_matching (id uid : string) (w : World) : list Poll.t :=
  filter (Supabase.poll_is_owned id uid) (polls w).

(** A poll as the data model wants it: a non-empty question and at least
    two options, none of them empty. *)
Definition poll_well_formed (p : Poll.t) : Prop :=
  Poll.question p <> "" /\
  exists options,
    Poll.options p = Some options /\
    (2 <= List.length options)%nat /\
    Forall (fun o => o <> "") options.

(** What [revalidatePath] has been called with by an action that answered
    [r]: "/polls" on an acknowledgment, nothing on an error. *)
Definition revalidated_on (r : Action.t) : list string :=
  match Action.error r with
  | None => ["/polls"]
  | Some _ => []
  end.

(** ** The poll creation form ([PollCreateForm.tsx]) *)

Import Ascii.

(** The string methods the form calls. *)
Module JsString.

(** [s.split(sep)] for a non-empty [sep] (the form splits on "; " and on
    "="): the pieces between successive occurrences of [sep], found from
    the left.  [skip] counts the characters of a matched separator still to
    pass over, [cur] is the piece read so far. *)
Fixpoint split_from (sep : string) (skip : nat) (cur s : string) : list string :=
  match s with
  | EmptyString => [cur]
  | String c rest =>
      match skip with
      | S k => split_from sep k cur rest
      | O =>
          if String.prefix sep s
          then cur :: split_from sep (String.length sep - 1) "" rest
          else split_from sep 0 (cur ++ String c "") rest
      end
  end.

Definition split (sep s : string) : list string := split_from sep 0 "" s.

(** [s.startsWith(p)] *)
Definition startsWith (p s : string) : bool := String.prefix p s.

(** Whether the character [c] occurs in [s]. *)
Fixpoint occurs (c : Ascii.ascii) (s : string) : bool :=
  match s with
  | EmptyString => false
  | String d rest => Ascii.eqb d c || occurs c rest
  end.

End JsString.

(** What the browser gives the form. *)
Module Browser.

(** [document.cookie] for a jar of script-visible cookies: the pairs
    [name=value], joined by "; ". *)
Definition document_cookie (jar : Cookies.t) : string :=
  String.concat "; " (map (fun e => fst e ++ "=" ++ snd e) jar).

(** [formData.set(name, value)]: the first entry called [name] is replaced
    and the others of that name removed; without such an entry the new one
    is appended. *)
Fixpoint set_first (fd : FormData.t) (name value : string) : FormData.t :=
  match fd with
  | [] => []
  | (n, v) :: rest =>
      if n =? name
      then (name, value) :: filter (fun e => negb (fst e =? name)) rest
      else (n, v) :: set_first rest name value
  end.

Definition FormData_set (fd : FormData.t) (name value : string) : FormData.t :=
  if existsb (fun e => fst e =? name) fd
  then set_first fd name value
  else (fd ++ [(name, value)])%list.

End Browser.

Module PollCreateForm.

(** [useState(["", ""])] *)
Definition initial_options : list string := [""; ""].

(** [opts.map((opt, i) => (i === idx ? value : opt))], from index [i]. *)
Fixpoint map_from (i idx : nat) (value : string) (opts : list string) : list string :=
  match opts with
  | [] => []
  | opt :: rest =>
      (if Nat.eqb i idx then value else opt) :: map_from (S i) idx value rest
  end.

(** The updater [handleOptionChange(idx, value)] hands to [setOptions]. *)
Definition handleOptionChange (idx : nat) (value : string) (opts : list string)
    : list string :=
  map_from 0 idx value opts.

(** The updater of [addOption]. *)
Definition addOption (opts : list string) : list string := (opts ++ [""])%list.

(** [opts.filter((_, i) => i !== idx)], from index [i]. *)
Fixpoint filter_from (i idx : nat) (opts : list string) : list string :=
  match opts with
  | [] => []
  | opt :: rest =>
      if negb (Nat.eqb i idx)
      then opt :: filter_from (S i) idx rest
      else filter_from (S i) idx rest
  end.

(** [removeOption(idx)]: [options] is the state the handler was rendered
    with, [opts] the state the updater receives. *)
Definition removeOption (options : list string) (idx : nat) (opts : list string)
    : list string :=
  if (2 <? List.length options)%nat then filter_from 0 idx opts else opts.

(** What the user does to the option inputs. *)
Inductive OptionEvent :=
| Change (idx : nat) (value : string)
| Add
| Remove (idx : nat).

(** One event, handled by the handlers of the current render. *)
Definition handle (options : list string) (e : OptionEvent) : list string :=
  match e with
  | Change idx value => handleOptionChange idx value options
  | Add => addOption options
  | Remove idx => removeOption options idx options
  end.

Definition handle_all (events : list OptionEvent) : list string :=
  fold_left handle events initial_options.

(** The token the form reads from [document.cookie]:
    [split('; ').find((c) => c.startsWith('csrfToken='))?.split('=')[1]]. *)
Definition csrf_from_cookie (documentCookie : string) : option string :=
  match find (JsString.startsWith "csrfToken=") (JsString.split "; " documentCookie) with
  | Some c => nth_error (JsString.split "=" c) 1
  | None => None
  end.

(** The [try] block of the form action: the token, when there is a truthy
    one, is set on the payload.  [documentCookie] is [None] when reading
    [document.cookie] throws. *)
Definition attach_csrf (documentCookie : option string) (formData : FormData.t)
    : FormData.t :=
  match documentCookie with
  | None => formData
  | Some dc =>
      match csrf_from_cookie dc with
      | Some csrf =>
          if Js.truthy csrf
          then Browser.FormData_set formData "csrfToken" csrf
          else formData
      | None => formData
      end
  end.

(** The form's [error] and [success] state after a submission. *)
Record View := mkView { error : option string; success : bool }.

(** The form action: reset the view, attach the token, call [createPoll],
    show its error or the success notice.  ([res?.error] is a truthiness
    test: an empty error text counts as none.) *)
Definition action (documentCookie : option string) (formData : FormData.t)
    (env : Env) (w : World) : View * World :=
  let '(res, w') := PollActions.createPoll env (attach_csrf documentCookie formData) w in
  if Js.truthy_opt (Action.error res)
  then (mkView (Action.error res) false, w')
  else (mkView None true, w').

End PollCreateForm.

(** A cookie jar whose names hold neither ';' nor '=' and whose values hold
    no ';', as cookie syntax has it. *)
Definition jar_clean (jar : Cookies.t) : Prop :=
  Forall (fun e =>
            JsString.occurs ";"%char (fst e) = false
            /\ JsString.occurs "="%char (fst e) = false
            /\ JsString.occurs ";"%char (snd e) = false) jar.

(** ** The auth context ([auth-context.tsx]) *)

Module AuthContext.

(** A session object, of which the provider reads [session?.user]. *)
Record Session := mkSession { session_user : option User.t }.

(** The provider's three pieces of state, the [mounted] flag of its effect
    and whether the auth listener is still subscribed. *)
Record State := mkState {
  session : option Session;
  user : option User.t;
  loading : bool;
  mounted : bool;
  subscribed : bool
}.

(** [useState(null)], [useState(null)], [useState(true)]; the effect has set
    [mounted = true] and subscribed the listener. *)
Definition initial : State := mkState None None true true true.

(** What can happen to a mounted provider. *)
Inductive Event :=
| GetUserResolved (data_user : option User.t) (error : option BackendError)
    (* [await supabase.auth.getUser()] returns *)
| AuthStateChange (s : option Session)
    (* the client calls the [onAuthStateChange] callback *)
| Cleanup.
    (* the effect's cleanup runs *)

Definition step (st : State) (e : Event) : State :=
  match e with
  | GetUserResolved data_user _ =>
      if mounted st
      then mkState None data_user false (mounted st) (subscribed st)
      else st
  | AuthStateChange s =>
      if subscribed st
      then mkState s
             (match s with Some s' => session_user s' | None => None end)
             (loading st) (mounted st) (subscribed st)
      else st
  | Cleanup => mkState (session st) (user st) (loading st) false false
  end.

Definition run (st : State) (events : list Event) : State :=
  fold_left step events st.

(** The event is an answer of [getUser]. *)
Definition is_getUser (e : Event) : bool :=
  match e with
  | GetUserResolved _ _ => true
  | _ => false
  end.

End AuthContext.

(** * Properties *)

(** ** JavaScript truthiness *)

Lemma truthy_true (s : string) : Js.truthy s = true <-> s <> "".
Proof.
  unfold Js.truthy. rewrite negb_true_iff. apply String.eqb_neq.
Qed.

Lemma truthy_false (s : string) : Js.truthy s = false <-> s = "".
Proof.
  unfold Js.truthy. rewrite negb_false_iff. apply String.eqb_eq.
Qed.

(** ** Numbers *)

Lemma Qle_bool_inject_Z (x y : Z) :
  QArith_base.Qle_bool (QArith_base.inject_Z x) (QArith_base.inject_Z y)
    = (x <=? y)%Z.
Proof. unfold QArith_base.Qle_bool. simpl. now rewrite !Z.mul_1_r. Qed.

(** On integers the two comparisons are the integer ones. *)
Lemma lt_of_Z (a b : Z) :
  JsNumber.lt (JsNumber.of_Z a) (JsNumber.of_Z b) = (a <? b)%Z.
Proof.
  unfold JsNumber.lt, JsNumber.of_Z. cbn [JsNumber.is_NaN JsNumber.le_ordered negb andb].
  rewrite Qle_bool_inject_Z. now rewrite Z.ltb_antisym.
Qed.

Lemma ge_of_Z (a b : Z) :
  JsNumber.ge (JsNumber.of_Z a) (JsNumber.of_Z b) = (b <=? a)%Z.
Proof.
  unfold JsNumber.ge, JsNumber.of_Z. cbn [JsNumber.is_NaN JsNumber.le_ordered negb andb].
  apply Qle_bool_inject_Z.
Qed.

(** An integer passes the bounds check exactly when it is an index. *)
Lemma integer_passes_bounds (z : Z) (n : nat) :
  passes_bounds (JsNumber.of_Z z) n <-> (0 <= z < Z.of_nat n)%Z.
Proof.
  unfold passes_bounds, JsNumber.of_nat. rewrite lt_of_Z, ge_of_Z.
  rewrite Z.ltb_ge, Z.leb_gt. reflexivity.
Qed.

(** ** The anti-forgery guard *)

Section CsrfGuard.

Import PollActions.

Variable env : Env.
Variable formData : FormData.t.

Lemma csrf_guard_pass : csrf_guard env formData = None <-> csrf_valid env formData.
Proof.
  unfold csrf_guard, csrf_valid. split.
  - destruct (cookie_store env) as [store|]; [|discriminate].
    destruct (Cookies.get_value store "csrfToken") as [c|] eqn:Hcookie;
      [|discriminate].
    destruct (FormData.get formData "csrfToken") as [f|] eqn:Hfield;
      [|discriminate].
    destruct (Js.truthy c) eqn:Hc; simpl; [|discriminate].
    destruct (Js.truthy f) eqn:Hf; simpl; [|discriminate].
    unfold Js.strict_neq. destruct (c =? f) eqn:Hcf; simpl; [|discriminate].
    intros _. apply String.eqb_eq in Hcf. subst f.
    exists store, c. apply truthy_true in Hc. auto.
  - intros (store & tok & -> & -> & -> & Hne).
    apply truthy_true in Hne. rewrite Hne. simpl.
    unfold Js.strict_neq. now rewrite String.eqb_refl.
Qed.

(** Whatever the guard rejects, it rejects with one of its two messages. *)
Lemma csrf_guard_messages (msg : string) :
  csrf_guard env formData = Some msg ->
  msg = "Invalid CSRF token." \/ msg = "CSRF validation failed.".
Proof.
  unfold csrf_guard.
  destruct (cookie_store env) as [store|]; [|intros [= <-]; now right].
  destruct (Cookies.get_value store "csrfToken") as [c|];
    destruct (FormData.get formData "csrfToken") as [f|];
    try (intros [= <-]; now left).
  destruct (_ || _); [intros [= <-]; now left | discriminate].
Qed.

(** A missing cookie value, a missing payload field, or two unequal values:
    the guard answers "Invalid CSRF token.". *)
Lemma csrf_guard_rejects (store : Cookies.t) :
  cookie_store env = Some store ->
  Cookies.get_value store "csrfToken" = None
  \/ FormData.get formData "csrfToken" = None
  \/ Cookies.get_value store "csrfToken" <> FormData.get formData "csrfToken" ->
  csrf_guard env formData = Some "Invalid CSRF token.".
Proof.
  intros Hs H. unfold csrf_guard. rewrite Hs.
  destruct (Cookies.get_value store "csrfToken") as [c|];
    destruct (FormData.get formData "csrfToken") as [f|]; auto.
  destruct H as [H | [H | H]]; try discriminate.
  unfold Js.strict_neq. destruct (c =? f) eqn:Hcf.
  - apply String.eqb_eq in Hcf. congruence.
  - simpl. now rewrite orb_true_r.
Qed.

(** [createPoll] and [updatePoll] fail closed: a request the guard rejects
    leaves the world as it was. *)
Lemma createPoll_csrf_closed (w : World) (msg : string) :
  csrf_guard env formData = Some msg ->
  createPoll env formData w = (Action.fail msg, w).
Proof. intros H. unfold createPoll. now rewrite H. Qed.

Lemma updatePoll_csrf_closed (pollId : string) (w : World) (msg : string) :
  csrf_guard env formData = Some msg ->
  updatePoll env pollId formData w = (Action.fail msg, w).
Proof. intros H. unfold updatePoll. now rewrite H. Qed.

End CsrfGuard.

(** [deletePoll] does not depend on the cookie store of the request. *)
Lemma deletePoll_ignores_cookies (c c' : option Cookies.t) (u : option User.t)
    (ae : option BackendError) (f : StorageCall -> option BackendError)
    (nid : string) (t : Z) (id : string) (w : World) :
  PollActions.deletePoll (mkEnv c u ae f nid t) id w
    = PollActions.deletePoll (mkEnv c' u ae f nid t) id w.
Proof. reflexivity. Qed.

(** C1. [deletePoll] takes no payload and reads no cookie: a request from
    alice's session that carries no [csrfToken] cookie deletes her poll and
    is acknowledged, where [createPoll] and [updatePoll] on the same request
    answer "Invalid CSRF token." and leave the world alone. *)
Theorem deletePoll_skips_csrf_guard :
  let env := Fixtures.signed_in_no_cookie Fixtures.alice in
  let form := Fixtures.poll_form "tok" "Q?" ["a"; "b"] in
  PollActions.deletePoll env "poll-1" Fixtures.world0
    = (Action.done,
       mkWorld [Fixtures.tea_coffee; Fixtures.red_blue] [] ["/polls"])
  /\ PollActions.createPoll env form Fixtures.world0
    = (Action.fail "Invalid CSRF token.", Fixtures.world0)
  /\ PollActions.updatePoll env "poll-1" form Fixtures.world0
    = (Action.fail "Invalid CSRF token.", Fixtures.world0).
Proof. repeat split. Qed.

(** ** Backend failures *)

(** C9. Each of the six actions hands the backend's own error text to the
    caller: with storage failing on [pg_denied], every action answers with
    exactly [message pg_denied]; with the identity provider failing,
    [createPoll] and [updatePoll] answer with the provider's text. *)
Theorem backend_error_text_is_forwarded :
  let env := Fixtures.storage_down Fixtures.alice Fixtures.pg_denied in
  let form := Fixtures.poll_form "tok" "Q?" ["a"; "b"] in
  let raw := Some (message Fixtures.pg_denied) in
  Action.error (fst (PollActions.createPoll env form Fixtures.world0)) = raw
  /\ UserPolls.error (PollActions.getUserPolls env Fixtures.world0) = raw
  /\ PollById.error (PollActions.getPollById env Fixtures.world0 "poll-1") = raw
  /\ Action.error (fst (PollActions.submitVote env "poll-1" (JsNumber.of_Z 0) Fixtures.world0)) = raw
  /\ Action.error (fst (PollActions.deletePoll env "poll-1" Fixtures.world0)) = raw
  /\ Action.error (fst (PollActions.updatePoll env "poll-1" form Fixtures.world0)) = raw
  /\ Action.error
       (fst (PollActions.createPoll (Fixtures.auth_down Fixtures.auth_unreachable)
               form Fixtures.world0))
     = Some (message Fixtures.auth_unreachable)
  /\ Action.error
       (fst (PollActions.updatePoll (Fixtures.auth_down Fixtures.auth_unreachable)
               "poll-1" form Fixtures.world0))
     = Some (message Fixtures.auth_unreachable).
Proof. repeat split. Qed.

(** The same, for any failure of any storage call: the message is passed on
    unchanged. *)
Lemma getPollById_forwards_fault (env : Env) (w : World) (id : string)
    (user : User.t) (e : BackendError) :
  auth_user env = Some user ->
  fault env PollsSelectById = Some e ->
  PollActions.getPollById env w id = PollById.mk None (Some (message e)).
Proof.
  intros Hu Hf. unfold PollActions.getPollById, Supabase.polls_select_by_id,
    Supabase.answer. now rewrite Hu, Hf.
Qed.

Lemma deletePoll_forwards_fault (env : Env) (w : World) (id : string)
    (user : User.t) (e : BackendError) :
  auth_user env = Some user ->
  fault env PollsDelete = Some e ->
  PollActions.deletePoll env id w = (Action.fail (message e), w).
Proof.
  intros Hu Hf. unfold PollActions.deletePoll, Supabase.polls_delete.
  now rewrite Hu, Hf.
Qed.

(** ** The duplicate-vote lookup *)

Section VoteLookup.

Import Supabase PollActions.

(** A response that carries an error carries no data. *)
Lemma answer_error_no_data {A} (env : Env) (c : StorageCall) (r : Response A)
    (e : BackendError) :
  (forall e', error r = Some e' -> data r = None) ->
  error (answer env c r) = Some e -> data (answer env c r) = None.
Proof.
  intros Hr. unfold answer. destruct (fault env c); simpl; eauto.
Qed.

Lemma maybeSingle_error_no_data {A} (rows : list A) (e : BackendError) :
  error (maybeSingle rows) = Some e -> data (maybeSingle rows) = None.
Proof.
  destruct rows as [|r [|r' rows]]; simpl; auto; discriminate.
Qed.

Lemma single_error_no_data {A} (rows : list A) (e : BackendError) :
  error (single rows) = Some e -> data (single rows) = None.
Proof.
  destruct rows as [|r [|r' rows]]; simpl; auto; discriminate.
Qed.

Lemma lookup_abort_PGRST116 (e : BackendError) :
  code e = "PGRST116" -> lookup_abort (Some e) = None.
Proof. intros H. unfold lookup_abort, Js.strict_neq. now rewrite H. Qed.

Lemma lookup_abort_other (e : BackendError) :
  code e <> "PGRST116" -> lookup_abort (Some e) = Some e.
Proof.
  intros H. unfold lookup_abort, Js.strict_neq.
  apply String.eqb_neq in H. now rewrite H.
Qed.

(** [submitVote] from the point where the lookup has been made: the poll was
    fetched, its options are an array and the index passes the bounds
    check. *)
Lemma submitVote_reaches_lookup (env : Env) (w : World) (pollId : string)
    (optionIndex : JsNumber.t) (user : User.t) (poll : Poll.t)
    (options : list string) :
  auth_user env = Some user ->
  polls_select_options env w pollId = ok poll ->
  Poll.options poll = Some options ->
  passes_bounds optionIndex (List.length options) ->
  submitVote env pollId optionIndex w =
    let existing := votes_select_existing env w pollId (User.id user) in
    match lookup_abort (error existing) with
    | Some existingErr => (Action.fail (message existingErr), w)
    | None =>
        match data existing with
        | Some _ => (Action.fail "You have already voted on this poll.", w)
        | None =>
            match fault env VotesInsert with
            | Some e => (Action.fail (message e), w)
            | None =>
                (Action.done,
                 mkWorld (polls w)
                   (votes w ++ [Vote.mk (new_id env) pollId (User.id user) optionIndex])
                   (revalidated w))
            end
        end
    end.
Proof.
  intros Hu Hp Ho [Hlo Hhi]. unfold submitVote. rewrite Hu, Hp.
  unfold ok. cbn [data error]. rewrite Ho, Hlo, Hhi.
  cbn [orb]. unfold votes_insert.
  destruct (lookup_abort _); auto.
  destruct (data _); auto.
  destruct (fault env VotesInsert); auto.
Qed.

(** C10. When the duplicate-vote lookup of [submitVote] answers with an error
    [e]: if [e] has code PGRST116 the error is passed over, no existing vote
    is seen and the insert is made (the vote is appended, or the insert's
    own failure is reported); with any other code the action stops with
    [e]'s message and the world is unchanged. *)
Theorem submitVote_lookup_error (env : Env) (w : World) (pollId : string)
    (optionIndex : Z) (user : User.t) (poll : Poll.t) (options : list string)
    (e : BackendError) :
  auth_user env = Some user ->
  polls_select_options env w pollId = ok poll ->
  Poll.options poll = Some options ->
  (0 <= optionIndex < Z.of_nat (List.length options))%Z ->
  error (votes_select_existing env w pollId (User.id user)) = Some e ->
  (code e = "PGRST116" ->
     submitVote env pollId (JsNumber.of_Z optionIndex) w =
       match fault env VotesInsert with
       | Some e' => (Action.fail (message e'), w)
       | None =>
           (Action.done,
            mkWorld (polls w)
              (votes w ++
                 [Vote.mk (new_id env) pollId (User.id user)
                    (JsNumber.of_Z optionIndex)])
              (revalidated w))
       end)
  /\ (code e <> "PGRST116" ->
        submitVote env pollId (JsNumber.of_Z optionIndex) w
          = (Action.fail (message e), w)).
Proof.
  intros Hu Hp Ho Hi He. apply integer_passes_bounds in Hi.
  rewrite (submitVote_reaches_lookup env w pollId (JsNumber.of_Z optionIndex)
             user poll options) by assumption.
  cbv zeta. rewrite He. split; intros Hc.
  - rewrite (lookup_abort_PGRST116 e Hc).
    assert (Hd : data (votes_select_existing env w pollId (User.id user)) = None).
    { unfold votes_select_existing in *.
      eapply answer_error_no_data; eauto.
      intros e'. apply maybeSingle_error_no_data. }
    now rewrite Hd.
  - now rewrite (lookup_abort_other e Hc).
Qed.

Lemma submitVote_lookup_error_witness :
  submitVote (Fixtures.lookup_down Fixtures.bob PGRST116) "poll-1"
    (JsNumber.of_Z 1) Fixtures.world0
    = (Action.done,
       mkWorld (polls Fixtures.world0)
         [Vote.mk "row-new" "poll-1" "user-bob" (JsNumber.of_Z 1)] [])
  /\ submitVote (Fixtures.lookup_down Fixtures.bob Fixtures.pg_timeout) "poll-1"
       (JsNumber.of_Z 1) Fixtures.world0
    = (Action.fail "canceling statement due to statement timeout", Fixtures.world0).
Proof.
  split.
  - apply (proj1 (submitVote_lookup_error
                    (Fixtures.lookup_down Fixtures.bob PGRST116) Fixtures.world0
                    "poll-1" 1%Z Fixtures.bob Fixtures.cats_dogs ["Cats"; "Dogs"]
                    PGRST116 eq_refl eq_refl eq_refl
                    ltac:(simpl; lia) eq_refl)).
    reflexivity.
  - apply (proj2 (submitVote_lookup_error
                    (Fixtures.lookup_down Fixtures.bob Fixtures.pg_timeout)
                    Fixtures.world0
                    "poll-1" 1%Z Fixtures.bob Fixtures.cats_dogs ["Cats"; "Dogs"]
                    Fixtures.pg_timeout eq_refl eq_refl eq_refl
                    ltac:(simpl; lia) eq_refl)).
    discriminate.
Defined.

End VoteLookup.

(** ** Vote bounds and vote uniqueness *)

Section Votes.

Import Supabase PollActions.

Lemma single_ok_inv {A} (rows : list A) (r : A) :
  single rows = ok r -> rows = [r].
Proof.
  destruct rows as [|r0 [|r1 rows]]; simpl; try discriminate.
  now intros [= ->].
Qed.

(** The poll fetch of [submitVote] answers with a row exactly when it meets
    no fault and one row has the identifier. *)
Lemma polls_select_options_ok (env : Env) (w : World) (pollId : string)
    (poll : Poll.t) :
  polls_select_options env w pollId = ok poll <->
  fault env PollsSelectOptions = None /\ polls_with_id pollId w = [poll].
Proof.
  unfold polls_select_options, answer, polls_with_id. split.
  - destruct (fault env PollsSelectOptions); [discriminate|].
    intros H. split; auto. now apply single_ok_inv.
  - intros [-> ->]. reflexivity.
Qed.

(** What the fetch has answered once [submitVote] is past it. *)
Lemma polls_select_options_no_error (env : Env) (w : World) (pollId : string) :
  error (polls_select_options env w pollId) = None ->
  fault env PollsSelectOptions = None /\
  data (polls_select_options env w pollId) = hd_error (polls_with_id pollId w) /\
  List.length (polls_with_id pollId w) = 1%nat.
Proof.
  unfold polls_select_options, answer, polls_with_id.
  destruct (fault env PollsSelectOptions); [discriminate|].
  destruct (filter (poll_is pollId) (polls w)) as [|r [|r' rows]];
    simpl; try discriminate; auto.
Qed.

(** [submitVote] changes the world by at most one appended vote record. *)
Lemma submitVote_world (env : Env) (pollId : string) (optionIndex : JsNumber.t)
    (w : World) :
  snd (submitVote env pollId optionIndex w) = w \/
  exists user,
    auth_user env = Some user /\
    fst (submitVote env pollId optionIndex w) = Action.done /\
    snd (submitVote env pollId optionIndex w) =
      mkWorld (polls w)
        (votes w ++ [Vote.mk (new_id env) pollId (User.id user) optionIndex])
        (revalidated w).
Proof.
  unfold submitVote.
  destruct (auth_user env) as [user|]; [|now left].
  destruct (error (polls_select_options env w pollId)); [now left|].
  destruct (match data (polls_select_options env w pollId) with
            | Some poll => Poll.options poll
            | None => None
            end) as [options|]; [|now left].
  destruct (_ || _); [now left|].
  destruct (lookup_abort _); [now left|].
  destruct (data _); [now left|].
  unfold votes_insert. destruct (fault env VotesInsert); [now left|].
  right. exists user. auto.
Qed.

(** An acknowledged vote went through every check. *)
Lemma submitVote_done_inv (env : Env) (pollId : string) (optionIndex : JsNumber.t)
    (w : World) :
  fst (submitVote env pollId optionIndex w) = Action.done ->
  exists user poll options,
    auth_user env = Some user /\
    polls_select_options env w pollId = ok poll /\
    Poll.options poll = Some options /\
    passes_bounds optionIndex (List.length options) /\
    snd (submitVote env pollId optionIndex w) =
      mkWorld (polls w)
        (votes w ++ [Vote.mk (new_id env) pollId (User.id user) optionIndex])
        (revalidated w).
Proof.
  unfold submitVote.
  destruct (auth_user env) as [user|]; [|discriminate].
  destruct (polls_select_options env w pollId) as [d e] eqn:Hfetch.
  cbn [data error].
  destruct e as [pollErr|]; [discriminate|].
  destruct d as [poll|]; [|discriminate].
  destruct (Poll.options poll) as [options|] eqn:Hopts; [|discriminate].
  destruct (JsNumber.lt optionIndex (JsNumber.of_Z 0)) eqn:Hlo; [discriminate|].
  destruct (JsNumber.ge optionIndex (JsNumber.of_nat (List.length options)))
    eqn:Hhi; [discriminate|]. cbn [orb].
  destruct (lookup_abort _); [discriminate|].
  destruct (data _); [discriminate|].
  unfold votes_insert. destruct (fault env VotesInsert); [discriminate|].
  intros _. exists user, poll, options. unfold passes_bounds. auto 10.
Qed.

(** An acknowledged vote saw no existing record in its lookup. *)
Lemma submitVote_done_lookup (env : Env) (pollId : string) (optionIndex : JsNumber.t)
    (w : World) (user : User.t) :
  auth_user env = Some user ->
  fst (submitVote env pollId optionIndex w) = Action.done ->
  lookup_abort (error (votes_select_existing env w pollId (User.id user))) = None /\
  data (votes_select_existing env w pollId (User.id user)) = None.
Proof.
  intros Hu. unfold submitVote. rewrite Hu.
  destruct (error (polls_select_options env w pollId)); [discriminate|].
  destruct (match data (polls_select_options env w pollId) with
            | Some poll => Poll.options poll
            | None => None
            end) as [options|]; [|discriminate].
  destruct (_ || _); [discriminate|].
  destruct (lookup_abort _); [discriminate|].
  destruct (data _); [discriminate|]. auto.
Qed.

(** On integer indices the bounds check does what it is there for.  For a
    signed-in caller and a poll that exists with [n] options: [submitVote]
    on an integer is acknowledged only if [0 <= optionIndex <= n - 1]; an
    integer outside that range (so [-1], and [n]) never adds a vote record,
    and when the poll fetch meets no failure the answer is "Invalid option
    selected." with the world unchanged. *)
Lemma submitVote_integer_bounds (env : Env) (w : World) (pollId : string)
    (optionIndex : Z) (user : User.t) (poll : Poll.t) (options : list string) :
  auth_user env = Some user ->
  polls_with_id pollId w = [poll] ->
  Poll.options poll = Some options ->
  let n := Z.of_nat (List.length options) in
  (fst (submitVote env pollId (JsNumber.of_Z optionIndex) w) = Action.done ->
     (0 <= optionIndex <= n - 1)%Z)
  /\ ((optionIndex < 0 \/ n <= optionIndex)%Z ->
        snd (submitVote env pollId (JsNumber.of_Z optionIndex) w) = w)
  /\ (fault env PollsSelectOptions = None ->
      (optionIndex < 0 \/ n <= optionIndex)%Z ->
        submitVote env pollId (JsNumber.of_Z optionIndex) w
          = (Action.fail "Invalid option selected.", w)).
Proof.
  intros Hu Hp Ho n.
  assert (Hin : fst (submitVote env pollId (JsNumber.of_Z optionIndex) w)
                  = Action.done -> (0 <= optionIndex <= n - 1)%Z).
  { intros Hdone.
    destruct (submitVote_done_inv _ _ _ _ Hdone)
      as (user' & poll' & options' & _ & Hfetch & Ho' & Hi & _).
    apply polls_select_options_ok in Hfetch. destruct Hfetch as [_ Hp'].
    rewrite Hp in Hp'. injection Hp' as <-. rewrite Ho in Ho'.
    injection Ho' as <-. apply integer_passes_bounds in Hi. subst n. lia. }
  split; [exact Hin|split].
  - intros Hout.
    destruct (submitVote_world env pollId (JsNumber.of_Z optionIndex) w)
      as [H | (user' & _ & Hdone & _)]; auto.
    apply Hin in Hdone. lia.
  - intros Hf Hout.
    assert (Hfetch : polls_select_options env w pollId = ok poll)
      by (apply polls_select_options_ok; auto).
    unfold submitVote. rewrite Hu, Hfetch. unfold ok. cbn [data error].
    rewrite Ho. unfold JsNumber.of_nat. rewrite lt_of_Z, ge_of_Z. fold n.
    destruct (optionIndex <? 0)%Z eqn:Hlo; auto.
    destruct (n <=? optionIndex)%Z eqn:Hhi; auto.
    apply Z.ltb_ge in Hlo. apply Z.leb_gt in Hhi. lia.
Qed.

(** C6. The bounds check lets through numbers that are no index.  On a poll
    of two options a signed-in caller's vote with index 1.5, and one with
    [NaN], pass [optionIndex < 0 || optionIndex >= options.length], are
    acknowledged and leave a vote record carrying that number; the integers
    [-1] and [2] on the same poll are answered "Invalid option selected."
    with the world unchanged. *)
Theorem submitVote_accepts_non_integer_index :
  let env := Fixtures.signed_in Fixtures.bob "tok" in
  let one_and_a_half := JsNumber.Finite (QArith_base.Qmake 3 2) in
  submitVote env "poll-1" one_and_a_half Fixtures.world0
    = (Action.done,
       mkWorld (polls Fixtures.world0)
         [Vote.mk "row-new" "poll-1" "user-bob" one_and_a_half] [])
  /\ submitVote env "poll-1" JsNumber.NaN Fixtures.world0
    = (Action.done,
       mkWorld (polls Fixtures.world0)
         [Vote.mk "row-new" "poll-1" "user-bob" JsNumber.NaN] [])
  /\ submitVote env "poll-1" (JsNumber.of_Z (-1)) Fixtures.world0
    = (Action.fail "Invalid option selected.", Fixtures.world0)
  /\ submitVote env "poll-1" (JsNumber.of_Z 2) Fixtures.world0
    = (Action.fail "Invalid option selected.", Fixtures.world0).
Proof. repeat split. Qed.

Lemma vote_of_own (id pollId uid : string) (i : JsNumber.t) :
  vote_of pollId uid (Vote.mk id pollId uid i) = true.
Proof. unfold vote_of. simpl. now rewrite !String.eqb_refl. Qed.

Lemma vote_of_inv (pollId uid : string) (v : Vote.t) :
  vote_of pollId uid v = true -> Vote.poll_id v = pollId /\ Vote.user_id v = uid.
Proof.
  unfold vote_of. intros H. apply andb_true_iff in H. destruct H as [H1 H2].
  split; now apply String.eqb_eq.
Qed.

Lemma votes_of_append (pollId uid : string) (w : World) (ps : list Poll.t)
    (v : Vote.t) (rv : list string) :
  votes_of pollId uid (mkWorld ps (votes w ++ [v]) rv) =
    (votes_of pollId uid w ++ (if vote_of pollId uid v then [v] else []))%list.
Proof. unfold votes_of. simpl. now rewrite filter_app. Qed.

(** The second call, on the world the first acknowledged vote left. *)
Lemma submitVote_again (env : Env) (w : World) (pollId : string)
    (i1 i2 : JsNumber.t) (user : User.t) (id : string) (poll : Poll.t) (options : list string) :
  auth_user env = Some user ->
  storage_up env ->
  polls_with_id pollId w = [poll] ->
  Poll.options poll = Some options ->
  votes_of pollId (User.id user) w = [] ->
  let w1 := mkWorld (polls w)
              (votes w ++ [Vote.mk id pollId (User.id user) i1]) (revalidated w) in
  submitVote env pollId i2 w1 =
    if JsNumber.lt i2 (JsNumber.of_Z 0)
       || JsNumber.ge i2 (JsNumber.of_nat (List.length options))
    then (Action.fail "Invalid option selected.", w1)
    else (Action.fail "You have already voted on this poll.", w1).
Proof.
  intros Hu Hup Hp Ho Hv w1.
  assert (Hfetch : polls_select_options env w1 pollId = ok poll)
    by (apply polls_select_options_ok; split; [apply Hup | exact Hp]).
  unfold submitVote. rewrite Hu, Hfetch. unfold ok. cbn [data error].
  rewrite Ho. destruct (_ || _); auto.
  unfold votes_select_existing, answer. rewrite (Hup VotesSelectExisting).
  fold (votes_of pollId (User.id user) w1). unfold w1.
  rewrite votes_of_append, Hv, vote_of_own. reflexivity.
Qed.

(** C7. After a first acknowledged [submitVote] for the pair (pollId, caller)
    (no record of the pair before it), a second call for the same pair, with
    storage answering, is refused: repeating the vote answers "You have
    already voted on this poll."; whatever index the second call carries,
    the answer is that or "Invalid option selected." and the world is left
    as it was, so the pair keeps exactly one record. *)
Theorem second_vote_is_refused (env1 env2 : Env) (w w1 : World) (pollId : string)
    (optionIndex : JsNumber.t) (user : User.t) :
  auth_user env1 = Some user ->
  auth_user env2 = Some user ->
  storage_up env2 ->
  votes_of pollId (User.id user) w = [] ->
  submitVote env1 pollId optionIndex w = (Action.done, w1) ->
  submitVote env2 pollId optionIndex w1
    = (Action.fail "You have already voted on this poll.", w1)
  /\ (forall i2,
        submitVote env2 pollId i2 w1
          = (Action.fail "You have already voted on this poll.", w1)
        \/ submitVote env2 pollId i2 w1
          = (Action.fail "Invalid option selected.", w1))
  /\ List.length (votes_of pollId (User.id user) w1) = 1%nat.
Proof.
  intros Hu1 Hu2 Hup Hv Hfirst.
  assert (Hdone : fst (submitVote env1 pollId optionIndex w) = Action.done)
    by now rewrite Hfirst.
  destruct (submitVote_done_inv _ _ _ _ Hdone)
    as (user' & poll & options & Hu' & Hfetch & Ho & Hi & Hw).
  rewrite Hu1 in Hu'. injection Hu' as <-.
  rewrite Hfirst in Hw. simpl in Hw.
  apply polls_select_options_ok in Hfetch. destruct Hfetch as [_ Hp].
  pose proof (fun i2 => submitVote_again env2 w pollId optionIndex i2 user
                          (new_id env1) poll options Hu2 Hup Hp Ho Hv) as Hagain.
  cbv zeta in Hagain. rewrite <- Hw in Hagain.
  split; [|split].
  - rewrite Hagain. destruct Hi as [Hlo Hhi]. now rewrite Hlo, Hhi.
  - intros i2. rewrite Hagain. destruct (_ || _); auto.
  - rewrite Hw, votes_of_append, Hv, vote_of_own. reflexivity.
Qed.

Lemma second_vote_is_refused_witness :
  let env := Fixtures.signed_in Fixtures.bob "tok" in
  let w1 := mkWorld (polls Fixtures.world0)
              [Vote.mk "row-new" "poll-1" "user-bob" (JsNumber.of_Z 1)] [] in
  submitVote env "poll-1" (JsNumber.of_Z 1) Fixtures.world0 = (Action.done, w1)
  /\ submitVote env "poll-1" (JsNumber.of_Z 1) w1
       = (Action.fail "You have already voted on this poll.", w1).
Proof.
  split; [reflexivity|].
  apply (second_vote_is_refused
           (Fixtures.signed_in Fixtures.bob "tok")
           (Fixtures.signed_in Fixtures.bob "tok")
           Fixtures.world0 _ "poll-1" (JsNumber.of_Z 1) Fixtures.bob
           eq_refl eq_refl (fun c => eq_refl) eq_refl eq_refl).
Defined.

(** Under sequential execution the table keeps at most one record per pair:
    a [submitVote] whose lookup meets no failure preserves [votes_unique]. *)
Lemma submitVote_keeps_votes_unique (env : Env) (pollId : string)
    (optionIndex : JsNumber.t) (w : World) :
  fault env VotesSelectExisting = None ->
  votes_unique w ->
  votes_unique (snd (submitVote env pollId optionIndex w)).
Proof.
  intros Hf Huniq.
  destruct (submitVote_world env pollId optionIndex w)
    as [-> | (user & Hu & Hdone & ->)]; auto.
  destruct (submitVote_done_lookup _ _ _ _ _ Hu Hdone) as [Habort Hdata].
  unfold votes_select_existing, answer in Habort, Hdata.
  rewrite Hf in Habort, Hdata.
  fold (votes_of pollId (User.id user) w) in Habort, Hdata.
  assert (Hnone : votes_of pollId (User.id user) w = []).
  { specialize (Huniq pollId (User.id user)).
    destruct (votes_of pollId (User.id user) w) as [|v [|v' rows]];
      simpl in *; try discriminate; auto; lia. }
  intros pollId' uid'. rewrite votes_of_append.
  destruct (vote_of pollId' uid' _) eqn:Hmatch.
  - apply vote_of_inv in Hmatch. simpl in Hmatch. destruct Hmatch as [<- <-].
    rewrite Hnone. simpl. lia.
  - rewrite app_nil_r. apply Huniq.
Qed.

End Votes.

(** ** Listing the caller's polls *)

Section Listing.

Import Supabase PollActions.

Lemma insert_desc_perm (p : Poll.t) (l : list Poll.t) :
  Permutation (p :: l) (insert_desc p l).
Proof.
  induction l as [|q l IH]; simpl; auto.
  destruct (Poll.created_at q <=? Poll.created_at p)%Z; auto.
  rewrite perm_swap. now constructor.
Qed.

Lemma order_created_at_desc_perm (l : list Poll.t) :
  Permutation l (order_created_at_desc l).
Proof.
  induction l as [|p l IH]; simpl; auto.
  rewrite <- insert_desc_perm. now constructor.
Qed.

Lemma insert_desc_sorted (p : Poll.t) (l : list Poll.t) :
  StronglySorted newer_or_same l -> StronglySorted newer_or_same (insert_desc p l).
Proof.
  induction 1 as [|q l Hsorted IH Hall]; simpl.
  - repeat constructor.
  - destruct (Poll.created_at q <=? Poll.created_at p)%Z eqn:Hcmp.
    + apply Z.leb_le in Hcmp. constructor; [now constructor|].
      constructor; [exact Hcmp|].
      eapply Forall_impl; [|exact Hall].
      unfold newer_or_same. intros r Hr. lia.
    + apply Z.leb_gt in Hcmp. constructor; [exact IH|].
      eapply Permutation_Forall; [apply insert_desc_perm|].
      constructor; [unfold newer_or_same; lia | exact Hall].
Qed.

Lemma order_created_at_desc_sorted (l : list Poll.t) :
  StronglySorted newer_or_same (order_created_at_desc l).
Proof.
  induction l as [|p l IH]; simpl; [constructor|].
  now apply insert_desc_sorted.
Qed.

Lemma poll_owned_by_spec (uid : string) (p : Poll.t) :
  poll_owned_by uid p = true <-> Poll.user_id p = uid.
Proof. unfold poll_owned_by. apply String.eqb_eq. Qed.

(** C8, as the code has it.  Without a session [getUserPolls] answers with
    an empty list together with the error "Not authenticated".  With a
    session, and the query meeting no failure, it answers without error
    with exactly the rows of [polls] the caller owns (same rows, same
    multiplicity), newest first; in particular with the empty list when the
    caller owns nothing. *)
Theorem getUserPolls_owned_newest_first (env : Env) (w : World) :
  (auth_user env = None ->
     getUserPolls env w = UserPolls.mk [] (Some "Not authenticated"))
  /\ (forall user,
        auth_user env = Some user ->
        fault env PollsSelectOwned = None ->
        let r := getUserPolls env w in
        UserPolls.error r = None
        /\ Permutation (UserPolls.polls r) (owned_by (User.id user) w)
        /\ (forall p, In p (UserPolls.polls r) <->
                      In p (polls w) /\ Poll.user_id p = User.id user)
        /\ StronglySorted newer_or_same (UserPolls.polls r)
        /\ (owned_by (User.id user) w = [] -> UserPolls.polls r = [])).
Proof.
  split.
  - intros Hu. unfold getUserPolls. now rewrite Hu.
  - intros user Hu Hf r.
    assert (Hr : r = UserPolls.mk
                       (order_created_at_desc (owned_by (User.id user) w)) None).
    { unfold r, getUserPolls, polls_select_owned, answer. now rewrite Hu, Hf. }
    rewrite Hr. simpl.
    assert (Hperm := order_created_at_desc_perm (owned_by (User.id user) w)).
    split; [reflexivity|]. split; [now symmetry|]. split; [|split].
    + intros p. split.
      * intros Hin. eapply Permutation_in in Hin; [|symmetry; exact Hperm].
        unfold owned_by in Hin. apply filter_In in Hin.
        destruct Hin as [Hin Hown]. split; auto.
        now apply poll_owned_by_spec.
      * intros [Hin Hown]. eapply Permutation_in; [exact Hperm|].
        unfold owned_by. apply filter_In. split; auto.
        now apply poll_owned_by_spec.
    + apply order_created_at_desc_sorted.
    + intros ->. reflexivity.
Qed.

Lemma getUserPolls_owned_newest_first_witness :
  getUserPolls Fixtures.anonymous Fixtures.world0
    = UserPolls.mk [] (Some "Not authenticated")
  /\ UserPolls.error
       (getUserPolls (Fixtures.signed_in Fixtures.alice "tok") Fixtures.world0)
     = None
  /\ UserPolls.polls
       (getUserPolls (Fixtures.signed_in Fixtures.alice "tok") Fixtures.world0)
     = [Fixtures.red_blue; Fixtures.cats_dogs].
Proof.
  split; [|split].
  - apply (proj1 (getUserPolls_owned_newest_first Fixtures.anonymous
                    Fixtures.world0) eq_refl).
  - apply (proj2 (getUserPolls_owned_newest_first
                    (Fixtures.signed_in Fixtures.alice "tok") Fixtures.world0)
             Fixtures.alice eq_refl eq_refl).
  - reflexivity.
Defined.

(** C8 as stated fails for an absent identity: the answer carries an error. *)
Lemma getUserPolls_anonymous_is_error :
  ~ (UserPolls.error (getUserPolls Fixtures.anonymous Fixtures.world0) = None).
Proof. discriminate. Qed.

End Listing.

(** ** Creating a poll *)

Section Creation.

Import Supabase PollActions.

(** C5, as the code has it.  On a request that passes the anti-forgery
    guard, [createPoll] answers with the validation message, and leaves the
    world unchanged, when the question is missing or empty or when fewer
    than two non-empty option entries are supplied (empty entries are
    dropped, not refused).  With a non-empty question, at least two
    non-empty entries, a signed-in caller and an insert that meets no
    failure, it is acknowledged and appends one poll whose owner is the
    caller, whose options are the non-empty entries in order, and it
    revalidates "/polls". *)
Theorem createPoll_validation (env : Env) (formData : FormData.t) (w : World) :
  csrf_valid env formData ->
  let question := FormData.get formData "question" in
  let options := kept_options formData in
  ((question = None \/ question = Some "" \/ (List.length options < 2)%nat) ->
     createPoll env formData w
       = (Action.fail "Please provide a question and at least two options.", w))
  /\ (forall user q,
        question = Some q -> q <> "" ->
        (2 <= List.length options)%nat ->
        auth_error env = None ->
        auth_user env = Some user ->
        fault env PollsInsert = None ->
        createPoll env formData w
          = (Action.done,
             mkWorld
               (polls w ++
                  [Poll.mk (new_id env) (User.id user) q (Some options) (now env)])
               (votes w)
               (revalidated w ++ ["/polls"]))).
Proof.
  intros Hcsrf question options.
  apply csrf_guard_pass in Hcsrf. unfold createPoll. rewrite Hcsrf.
  fold question. fold (kept_options formData). fold options. split.
  - intros [Hq | [Hq | Hlen]].
    + now rewrite Hq.
    + now rewrite Hq.
    + apply Nat.ltb_lt in Hlen. rewrite Hlen. now rewrite orb_true_r.
  - intros user q Hq Hne Hlen Herr Hu Hf.
    rewrite Hq. simpl. apply truthy_true in Hne. rewrite Hne. simpl.
    replace (List.length options <? 2)%nat with false
      by (symmetry; apply Nat.ltb_ge; lia).
    rewrite Herr, Hu. unfold polls_insert. now rewrite Hf.
Qed.

Lemma createPoll_validation_witness :
  let env := Fixtures.signed_in Fixtures.alice "tok" in
  createPoll env (Fixtures.poll_form "tok" "Q?" ["only one"]) Fixtures.world0
    = (Action.fail "Please provide a question and at least two options.",
       Fixtures.world0)
  /\ createPoll env (Fixtures.poll_form "tok" "Q?" ["a"; "b"]) Fixtures.world0
    = (Action.done,
       mkWorld
         (polls Fixtures.world0 ++
            [Poll.mk "row-new" "user-alice" "Q?" (Some ["a"; "b"]) 400])
         [] ["/polls"]).
Proof.
  assert (Hcsrf : forall opts,
             csrf_valid (Fixtures.signed_in Fixtures.alice "tok")
               (Fixtures.poll_form "tok" "Q?" opts)).
  { intros opts. exists [("csrfToken", "tok")], "tok".
    repeat split; try reflexivity; discriminate. }
  split.
  - apply (proj1 (createPoll_validation _ _ Fixtures.world0 (Hcsrf ["only one"]))).
    right. right. simpl. lia.
  - apply (proj2 (createPoll_validation _ _ Fixtures.world0 (Hcsrf ["a"; "b"]))
             Fixtures.alice "Q?" eq_refl).
    + discriminate.
    + simpl. lia.
    + reflexivity.
    + reflexivity.
    + reflexivity.
Defined.

(** C5 as stated fails on an empty option entry: the entry is dropped and
    the poll is created from the remaining two. *)
Lemma createPoll_drops_empty_option :
  let env := Fixtures.signed_in Fixtures.alice "tok" in
  let form := Fixtures.poll_form "tok" "Q?" ["a"; ""; "b"] in
  In "" (FormData.getAll form "options")
  /\ createPoll env form Fixtures.world0
     = (Action.done,
        mkWorld
          (polls Fixtures.world0 ++
             [Poll.mk "row-new" "user-alice" "Q?" (Some ["a"; "b"]) 400])
          [] ["/polls"]).
Proof. split; [simpl; auto | reflexivity]. Qed.

End Creation.

(** ** Ownership *)

Section Ownership.

Import Supabase PollActions.

Lemma filter_both {A} (f g : A -> bool) (l : list A) :
  filter (fun x => f x && g x) l = filter g (filter f l).
Proof.
  induction l as [|x l IH]; simpl; auto.
  destruct (f x); simpl; [destruct (g x)|]; now rewrite IH.
Qed.

Lemma filter_none_negb {A} (f : A -> bool) (l : list A) :
  filter f l = [] -> filter (fun x => negb (f x)) l = l.
Proof.
  induction l as [|x l IH]; simpl; auto.
  destruct (f x); simpl; [discriminate|]. intros H. now rewrite IH.
Qed.

Lemma map_none_matching {A} (f : A -> bool) (h : A -> A) (l : list A) :
  filter f l = [] -> map (fun x => if f x then h x else x) l = l.
Proof.
  induction l as [|x l IH]; simpl; auto.
  destruct (f x); simpl; [discriminate|]. intros H. now rewrite IH.
Qed.

(** A poll that exists under one identifier and belongs to someone else is
    not selected by the caller's combined predicate; nor is an absent one. *)
Lemma polls_matching_foreign (w : World) (pollId uid : string) (poll : Poll.t) :
  polls_with_id pollId w = [poll] ->
  Poll.user_id poll <> uid ->
  polls_matching pollId uid w = [].
Proof.
  unfold polls_matching, polls_with_id, poll_is_owned. intros Hp Hne.
  rewrite filter_both, Hp. simpl. unfold poll_owned_by.
  apply String.eqb_neq in Hne. now rewrite Hne.
Qed.

Lemma polls_matching_absent (w : World) (pollId uid : string) :
  polls_with_id pollId w = [] -> polls_matching pollId uid w = [].
Proof.
  unfold polls_matching, polls_with_id, poll_is_owned. intros Hp.
  now rewrite filter_both, Hp.
Qed.

(** [getPollById] when the combined predicate selects nothing. *)
Lemma getPollById_no_match (env : Env) (w : World) (id : string) (user : User.t) :
  auth_user env = Some user ->
  polls_matching id (User.id user) w = [] ->
  getPollById env w id =
    PollById.mk None
      (Some (message (match fault env PollsSelectById with
                      | Some e => e
                      | None => PGRST116
                      end))).
Proof.
  intros Hu Hm. unfold getPollById, polls_select_by_id, answer. rewrite Hu.
  fold (polls_matching id (User.id user) w). rewrite Hm.
  now destruct (fault env PollsSelectById).
Qed.

(** [deletePoll] and [updatePoll] when the combined predicate selects
    nothing: the tables are untouched. *)
Lemma polls_delete_no_match (env : Env) (w : World) (id uid : string) :
  polls_matching id uid w = [] ->
  polls_delete env w id uid = (fault env PollsDelete, w).
Proof.
  unfold polls_matching, polls_delete. intros Hm.
  destruct (fault env PollsDelete); auto.
  rewrite (filter_none_negb _ _ Hm). now destruct w.
Qed.

Lemma polls_update_no_match (env : Env) (w : World) (id uid question : string)
    (options : list string) :
  polls_matching id uid w = [] ->
  polls_update env w id uid question options = (fault env PollsUpdate, w).
Proof.
  unfold polls_matching, polls_update. intros Hm.
  destruct (fault env PollsUpdate); auto.
  rewrite (map_none_matching _ _ _ Hm). now destruct w.
Qed.

Lemma deletePoll_no_match (env : Env) (w : World) (id : string) (user : User.t) :
  auth_user env = Some user ->
  polls_matching id (User.id user) w = [] ->
  deletePoll env id w =
    match fault env PollsDelete with
    | Some e => (Action.fail (message e), w)
    | None => (Action.done, revalidatePath "/polls" w)
    end.
Proof.
  intros Hu Hm. unfold deletePoll. rewrite Hu, (polls_delete_no_match _ _ _ _ Hm).
  now destruct (fault env PollsDelete).
Qed.

(** [updatePoll] never touches [votes] or the revalidated paths, and touches
    [polls] only through the scoped update. *)
Lemma updatePoll_no_match (env : Env) (w : World) (pollId : string)
    (formData : FormData.t) (user : User.t) :
  auth_user env = Some user ->
  polls_matching pollId (User.id user) w = [] ->
  snd (updatePoll env pollId formData w) = w.
Proof.
  intros Hu Hm. unfold updatePoll.
  destruct (csrf_guard env formData); auto.
  destruct (_ || _); auto.
  destruct (auth_error env); auto.
  rewrite Hu, (polls_update_no_match _ _ _ _ _ _ Hm).
  now destruct (fault env PollsUpdate).
Qed.

(** C2, as the code has it.  Let a poll exist under [pollId], owned by
    [owner], and let the caller be a different identity.  [getPollById]
    answers with no poll and an error (the no-row answer of the single-row
    query when the query itself does not fail).  [updatePoll] and
    [deletePoll] leave the tables as they were; but once past their earlier
    checks, with storage answering, they acknowledge with [{ error: null }]
    instead of reporting that nothing was found. *)
Theorem foreign_poll_is_isolated (env : Env) (w : World) (pollId owner : string)
    (formData : FormData.t) (caller : User.t) (poll : Poll.t) :
  auth_user env = Some caller ->
  polls_with_id pollId w = [poll] ->
  Poll.user_id poll = owner ->
  User.id caller <> owner ->
  (PollById.poll (getPollById env w pollId) = None
   /\ PollById.error (getPollById env w pollId) <> None
   /\ (fault env PollsSelectById = None ->
         PollById.error (getPollById env w pollId) = Some (message PGRST116)))
  /\ snd (updatePoll env pollId formData w) = w
  /\ polls (snd (deletePoll env pollId w)) = polls w
  /\ votes (snd (deletePoll env pollId w)) = votes w
  /\ (fault env PollsDelete = None ->
        fst (deletePoll env pollId w) = Action.done)
  /\ (forall q,
        csrf_valid env formData ->
        FormData.get formData "question" = Some q -> q <> "" ->
        (2 <= List.length (kept_options formData))%nat ->
        auth_error env = None ->
        fault env PollsUpdate = None ->
        fst (updatePoll env pollId formData w) = Action.done).
Proof.
  intros Hu Hp Hown Hne.
  assert (Hm : polls_matching pollId (User.id caller) w = [])
    by (eapply polls_matching_foreign; eauto; congruence).
  rewrite (getPollById_no_match _ _ _ _ Hu Hm).
  rewrite (deletePoll_no_match _ _ _ _ Hu Hm).
  split; [|split; [|split; [|split; [|split]]]].
  - simpl. repeat split; [discriminate|]. now intros ->.
  - now apply updatePoll_no_match with (user := caller).
  - now destruct (fault env PollsDelete).
  - now destruct (fault env PollsDelete).
  - now intros ->.
  - intros q Hcsrf Hq Hqne Hlen Herr Hf.
    apply csrf_guard_pass in Hcsrf. unfold updatePoll. rewrite Hcsrf, Hq.
    fold (kept_options formData). simpl.
    apply truthy_true in Hqne. rewrite Hqne. simpl.
    replace (List.length (kept_options formData) <? 2)%nat with false
      by (symmetry; apply Nat.ltb_ge; lia).
    rewrite Herr, Hu. unfold polls_update. now rewrite Hf.
Qed.

Lemma foreign_poll_is_isolated_witness :
  let env := Fixtures.signed_in Fixtures.bob "tok" in
  let form := Fixtures.poll_form "tok" "Mine now" ["x"; "y"] in
  PollById.poll (getPollById env Fixtures.world0 "poll-1") = None
  /\ snd (updatePoll env "poll-1" form Fixtures.world0) = Fixtures.world0
  /\ polls (snd (deletePoll env "poll-1" Fixtures.world0)) = polls Fixtures.world0.
Proof.
  pose proof (foreign_poll_is_isolated
                (Fixtures.signed_in Fixtures.bob "tok") Fixtures.world0
                "poll-1" "user-alice"
                (Fixtures.poll_form "tok" "Mine now" ["x"; "y"])
                Fixtures.bob Fixtures.cats_dogs
                eq_refl eq_refl eq_refl ltac:(discriminate)) as H.
  split; [apply H | split; apply H].
Defined.

(** C2 as stated fails for [updatePoll]: bob's update of alice's poll is
    acknowledged, not answered with an error. *)
Lemma updatePoll_foreign_is_acknowledged :
  let env := Fixtures.signed_in Fixtures.bob "tok" in
  let form := Fixtures.poll_form "tok" "Mine now" ["x"; "y"] in
  polls_with_id "poll-1" Fixtures.world0 = [Fixtures.cats_dogs]
  /\ Poll.user_id Fixtures.cats_dogs <> User.id Fixtures.bob
  /\ ~ is_error (fst (updatePoll env "poll-1" form Fixtures.world0)).
Proof.
  repeat split; [discriminate|]. unfold is_error. simpl. intros H. now apply H.
Qed.

(** C3. For a signed-in caller, [getPollById] on an identifier no poll has
    and on the identifier of a poll someone else owns give the same answer
    in the same request environment: no poll, and the same error. *)
Theorem getPollById_absent_or_foreign (env : Env) (w : World)
    (absentId foreignId : string) (user : User.t) (poll : Poll.t) :
  auth_user env = Some user ->
  polls_with_id absentId w = [] ->
  polls_with_id foreignId w = [poll] ->
  Poll.user_id poll <> User.id user ->
  getPollById env w absentId = getPollById env w foreignId
  /\ PollById.poll (getPollById env w foreignId) = None
  /\ PollById.error (getPollById env w foreignId) <> None.
Proof.
  intros Hu Habsent Hforeign Hne.
  rewrite (getPollById_no_match env w absentId user Hu)
    by now apply polls_matching_absent.
  rewrite (getPollById_no_match env w foreignId user Hu)
    by (eapply polls_matching_foreign; eauto).
  repeat split. discriminate.
Qed.

Lemma getPollById_absent_or_foreign_witness :
  let env := Fixtures.signed_in Fixtures.bob "tok" in
  getPollById env Fixtures.world0 "poll-404" = getPollById env Fixtures.world0 "poll-1"
  /\ getPollById env Fixtures.world0 "poll-1"
     = PollById.mk None
         (Some "JSON object requested, multiple (or no) rows returned").
Proof.
  split; [|reflexivity].
  apply (getPollById_absent_or_foreign
           (Fixtures.signed_in Fixtures.bob "tok") Fixtures.world0
           "poll-404" "poll-1" Fixtures.bob Fixtures.cats_dogs
           eq_refl eq_refl eq_refl ltac:(discriminate)).
Defined.

(** C4, as the code has it.  When the combined predicate (identifier and
    owner) selects no row and the delete meets no failure, [deletePoll]
    acknowledges with [{ error: null }]: the tables are unchanged and
    "/polls" is revalidated. *)
Theorem deletePoll_zero_rows_acknowledged (env : Env) (w : World) (id : string)
    (user : User.t) :
  auth_user env = Some user ->
  polls_matching id (User.id user) w = [] ->
  fault env PollsDelete = None ->
  deletePoll env id w = (Action.done, revalidatePath "/polls" w).
Proof.
  intros Hu Hm Hf. rewrite (deletePoll_no_match _ _ _ _ Hu Hm). now rewrite Hf.
Qed.

Lemma deletePoll_zero_rows_acknowledged_witness :
  deletePoll (Fixtures.signed_in Fixtures.bob "tok") "poll-1" Fixtures.world0
    = (Action.done, revalidatePath "/polls" Fixtures.world0).
Proof.
  apply (deletePoll_zero_rows_acknowledged
           (Fixtures.signed_in Fixtures.bob "tok") Fixtures.world0 "poll-1"
           Fixtures.bob eq_refl eq_refl eq_refl).
Defined.

(** C4 as stated fails: deleting an identifier no poll has is acknowledged. *)
Lemma deletePoll_absent_is_acknowledged :
  polls_matching "poll-404" (User.id Fixtures.alice) Fixtures.world0 = []
  /\ ~ is_error
       (fst (deletePoll (Fixtures.signed_in Fixtures.alice "tok") "poll-404"
               Fixtures.world0)).
Proof.
  split; [reflexivity|]. unfold is_error. simpl. intros H. now apply H.
Qed.

End Ownership.

(** * Further properties of the server actions *)

Section ActionCases.

Import Supabase PollActions.

(** The two ways [createPoll] can end. *)
Lemma createPoll_cases (env : Env) (formData : FormData.t) (w : World) :
  (exists msg, createPoll env formData w = (Action.fail msg, w))
  \/ (exists user q,
        csrf_valid env formData /\
        FormData.get formData "question" = Some q /\ q <> "" /\
        (2 <= List.length (kept_options formData))%nat /\
        auth_user env = Some user /\
        createPoll env formData w
          = (Action.done,
             mkWorld
               (polls w ++
                  [Poll.mk (new_id env) (User.id user) q
                     (Some (kept_options formData)) (now env)])
               (votes w) (revalidated w ++ ["/polls"]))).
Proof.
  unfold createPoll. fold (kept_options formData).
  destruct (csrf_guard env formData) as [msg|] eqn:Hg; [left; eauto|].
  apply csrf_guard_pass in Hg.
  destruct (FormData.get formData "question") as [q|]; simpl; [|left; eauto].
  destruct (Js.truthy q) eqn:Hq; simpl; [|left; eauto].
  destruct (List.length (kept_options formData) <? 2)%nat eqn:Hlen;
    [left; eauto|].
  destruct (auth_error env); [left; eauto|].
  destruct (auth_user env) as [user|]; [|left; eauto].
  unfold polls_insert. destruct (fault env PollsInsert); [left; eauto|].
  right. exists user, q. apply truthy_true in Hq. apply Nat.ltb_ge in Hlen.
  repeat split; auto.
Qed.

(** The two ways [updatePoll] can end. *)
Lemma updatePoll_cases (env : Env) (pollId : string) (formData : FormData.t)
    (w : World) :
  (exists msg, updatePoll env pollId formData w = (Action.fail msg, w))
  \/ (exists user q,
        csrf_valid env formData /\
        FormData.get formData "question" = Some q /\ q <> "" /\
        (2 <= List.length (kept_options formData))%nat /\
        auth_user env = Some user /\
        updatePoll env pollId formData w
          = (Action.done,
             mkWorld
               (map (fun p =>
                       if poll_is_owned pollId (User.id user) p
                       then Poll.mk (Poll.id p) (Poll.user_id p) q
                              (Some (kept_options formData)) (Poll.created_at p)
                       else p)
                    (polls w))
               (votes w) (revalidated w))).
Proof.
  unfold updatePoll. fold (kept_options formData).
  destruct (csrf_guard env formData) as [msg|] eqn:Hg; [left; eauto|].
  apply csrf_guard_pass in Hg.
  destruct (FormData.get formData "question") as [q|]; simpl; [|left; eauto].
  destruct (Js.truthy q) eqn:Hq; simpl; [|left; eauto].
  destruct (List.length (kept_options formData) <? 2)%nat eqn:Hlen;
    [left; eauto|].
  destruct (auth_error env); [left; eauto|].
  destruct (auth_user env) as [user|]; [|left; eauto].
  unfold polls_update. destruct (fault env PollsUpdate); [left; eauto|].
  right. exists user, q. apply truthy_true in Hq. apply Nat.ltb_ge in Hlen.
  repeat split; auto.
Qed.

(** The two ways [deletePoll] can end. *)
Lemma deletePoll_cases (env : Env) (id : string) (w : World) :
  (exists msg, deletePoll env id w = (Action.fail msg, w))
  \/ (exists user,
        auth_user env = Some user /\
        deletePoll env id w
          = (Action.done,
             mkWorld
               (filter (fun p => negb (poll_is_owned id (User.id user) p)) (polls w))
               (votes w) (revalidated w ++ ["/polls"]))).
Proof.
  unfold deletePoll.
  destruct (auth_user env) as [user|]; [|left; eauto].
  unfold polls_delete. destruct (fault env PollsDelete); [left; eauto|].
  right. exists user. auto.
Qed.

(** The two ways [submitVote] can end. *)
Lemma submitVote_cases (env : Env) (pollId : string) (optionIndex : JsNumber.t)
    (w : World) :
  (exists msg, submitVote env pollId optionIndex w = (Action.fail msg, w))
  \/ (exists user,
        auth_user env = Some user /\
        submitVote env pollId optionIndex w
          = (Action.done,
             mkWorld (polls w)
               (votes w ++ [Vote.mk (new_id env) pollId (User.id user) optionIndex])
               (revalidated w))).
Proof.
  unfold submitVote.
  destruct (auth_user env) as [user|]; [|left; eauto].
  destruct (error (polls_select_options env w pollId)); [left; eauto|].
  destruct (match data (polls_select_options env w pollId) with
            | Some poll => Poll.options poll
            | None => None
            end) as [options|]; [|left; eauto].
  destruct (_ || _); [left; eauto|].
  destruct (lookup_abort _); [left; eauto|].
  destruct (data _); [left; eauto|].
  unfold votes_insert. destruct (fault env VotesInsert); [left; eauto|].
  right. exists user. auto.
Qed.

Lemma fail_is_error (msg : string) : is_error (Action.fail msg).
Proof. unfold is_error. simpl. discriminate. Qed.

Lemma done_is_no_error : ~ is_error Action.done.
Proof. unfold is_error. simpl. intros H. now apply H. Qed.

End ActionCases.

Section ActionEffects.

Import Supabase PollActions.

(** An action that answers with an error has changed nothing: no row of
    [polls] or [votes] and no revalidated path, for each of the four
    mutating actions, whatever the request and the failure. *)
Theorem failed_action_changes_nothing (env : Env) (pollId : string)
    (optionIndex : JsNumber.t) (formData : FormData.t) (w : World) :
  (is_error (fst (createPoll env formData w)) ->
     snd (createPoll env formData w) = w)
  /\ (is_error (fst (updatePoll env pollId formData w)) ->
        snd (updatePoll env pollId formData w) = w)
  /\ (is_error (fst (deletePoll env pollId w)) ->
        snd (deletePoll env pollId w) = w)
  /\ (is_error (fst (submitVote env pollId optionIndex w)) ->
        snd (submitVote env pollId optionIndex w) = w).
Proof.
  split; [|split; [|split]].
  - destruct (createPoll_cases env formData w)
      as [[msg ->] | (user & q & _ & _ & _ & _ & _ & ->)]; auto.
    intros H. now apply done_is_no_error in H.
  - destruct (updatePoll_cases env pollId formData w)
      as [[msg ->] | (user & q & _ & _ & _ & _ & _ & ->)]; auto.
    intros H. now apply done_is_no_error in H.
  - destruct (deletePoll_cases env pollId w) as [[msg ->] | (user & _ & ->)]; auto.
    intros H. now apply done_is_no_error in H.
  - destruct (submitVote_cases env pollId optionIndex w)
      as [[msg ->] | (user & _ & ->)]; auto.
    intros H. now apply done_is_no_error in H.
Qed.

Lemma failed_action_changes_nothing_witness :
  snd (deletePoll (Fixtures.storage_down Fixtures.alice Fixtures.pg_denied)
         "poll-1" Fixtures.world0) = Fixtures.world0
  /\ snd (submitVote Fixtures.anonymous "poll-1" JsNumber.NaN Fixtures.world0)
       = Fixtures.world0.
Proof.
  split.
  - apply (proj1 (proj2 (proj2 (failed_action_changes_nothing
             (Fixtures.storage_down Fixtures.alice Fixtures.pg_denied)
             "poll-1" (JsNumber.of_Z 0) [] Fixtures.world0)))).
    unfold is_error. simpl. discriminate.
  - apply (proj2 (proj2 (proj2 (failed_action_changes_nothing
             Fixtures.anonymous "poll-1" JsNumber.NaN [] Fixtures.world0)))).
    unfold is_error. simpl. discriminate.
Defined.

(** A request without a session changes nothing and reads nothing: the four
    mutating actions leave the world as it was, [getUserPolls] answers with
    no polls and [getPollById] with no poll, whatever token, payload or
    identifier the request carries. *)
Theorem anonymous_caller_gets_nothing (env : Env) (pollId : string)
    (optionIndex : JsNumber.t) (formData : FormData.t) (w : World) :
  auth_user env = None ->
  snd (createPoll env formData w) = w
  /\ snd (updatePoll env pollId formData w) = w
  /\ snd (deletePoll env pollId w) = w
  /\ snd (submitVote env pollId optionIndex w) = w
  /\ is_error (fst (createPoll env formData w))
  /\ is_error (fst (updatePoll env pollId formData w))
  /\ deletePoll env pollId w = (Action.fail "Not authenticated", w)
  /\ submitVote env pollId optionIndex w
       = (Action.fail "You must be logged in to vote.", w)
  /\ getUserPolls env w = UserPolls.mk [] (Some "Not authenticated")
  /\ getPollById env w pollId = PollById.mk None (Some "Not authenticated").
Proof.
  intros Hu.
  assert (Hc : exists msg, createPoll env formData w = (Action.fail msg, w)).
  { destruct (createPoll_cases env formData w)
      as [H | (user & q & _ & _ & _ & _ & Hu' & _)]; auto. congruence. }
  assert (Hup : exists msg, updatePoll env pollId formData w = (Action.fail msg, w)).
  { destruct (updatePoll_cases env pollId formData w)
      as [H | (user & q & _ & _ & _ & _ & Hu' & _)]; auto. congruence. }
  destruct Hc as [m1 Hc]. destruct Hup as [m2 Hup].
  rewrite Hc, Hup.
  unfold deletePoll, submitVote, getUserPolls, getPollById. rewrite Hu. simpl.
  repeat split; auto using fail_is_error.
Qed.

Lemma anonymous_caller_gets_nothing_witness :
  snd (createPoll Fixtures.anonymous
         (Fixtures.poll_form "tok" "Q?" ["a"; "b"]) Fixtures.world0)
    = Fixtures.world0.
Proof.
  apply (anonymous_caller_gets_nothing Fixtures.anonymous "poll-1" (JsNumber.of_Z 0)
           (Fixtures.poll_form "tok" "Q?" ["a"; "b"]) Fixtures.world0 eq_refl).
Defined.

Lemma map_update_field {A B} (f : A -> bool) (h : A -> A) (g : A -> B) (l : list A) :
  (forall x, g (h x) = g x) ->
  map g (map (fun x => if f x then h x else x) l) = map g l.
Proof.
  intros Hg. rewrite map_map. apply map_ext. intros x.
  destruct (f x); auto.
Qed.

(** [updatePoll] writes [question] and [options] only: whatever the request,
    the identifiers, owners and creation times of the rows of [polls] are,
    row by row, what they were; no row is added or removed; [votes] and the
    revalidated paths are untouched. *)
Theorem updatePoll_keeps_identity (env : Env) (pollId : string)
    (formData : FormData.t) (w : World) :
  let w' := snd (updatePoll env pollId formData w) in
  map Poll.id (polls w') = map Poll.id (polls w)
  /\ map Poll.user_id (polls w') = map Poll.user_id (polls w)
  /\ map Poll.created_at (polls w') = map Poll.created_at (polls w)
  /\ votes w' = votes w
  /\ revalidated w' = revalidated w.
Proof.
  destruct (updatePoll_cases env pollId formData w)
    as [[msg ->] | (user & q & _ & _ & _ & _ & _ & ->)]; simpl; auto.
  repeat split; apply map_update_field; auto.
Qed.

(** [createPoll] only appends: the rows of [polls] that were there are still
    there, unchanged and in the same order, followed by at most one new row,
    which belongs to the caller; [votes] is untouched. *)
Theorem createPoll_only_appends (env : Env) (formData : FormData.t) (w : World) :
  let w' := snd (createPoll env formData w) in
  votes w' = votes w
  /\ exists added,
       polls w' = (polls w ++ added)%list
       /\ (List.length added <= 1)%nat
       /\ forall p, In p added ->
            exists user, auth_user env = Some user
                         /\ Poll.user_id p = User.id user
                         /\ Poll.id p = new_id env.
Proof.
  destruct (createPoll_cases env formData w)
    as [[msg ->] | (user & q & _ & _ & _ & _ & Hu & ->)]; simpl.
  - split; auto. exists []. rewrite app_nil_r. repeat split; auto.
    intros p [].
  - split; auto. eexists. split; [reflexivity|]. split; [simpl; lia|].
    intros p [<- | []]. exists user. auto.
Qed.

Lemma kept_options_nonempty (formData : FormData.t) :
  Forall (fun o => o <> "") (kept_options formData).
Proof.
  apply Forall_forall. intros o Hin. unfold kept_options in Hin.
  apply filter_In in Hin. now apply truthy_true.
Qed.

(** The data-model invariant of polls is kept by every mutating action: if
    each row of [polls] has a non-empty question and at least two options,
    none empty, the same holds after [createPoll], [updatePoll],
    [deletePoll] and [submitVote], whatever the request. *)
Theorem actions_keep_polls_well_formed (env : Env) (pollId : string)
    (optionIndex : JsNumber.t) (formData : FormData.t) (w : World) :
  Forall poll_well_formed (polls w) ->
  Forall poll_well_formed (polls (snd (createPoll env formData w)))
  /\ Forall poll_well_formed (polls (snd (updatePoll env pollId formData w)))
  /\ Forall poll_well_formed (polls (snd (deletePoll env pollId w)))
  /\ Forall poll_well_formed (polls (snd (submitVote env pollId optionIndex w))).
Proof.
  intros Hwf. split; [|split; [|split]].
  - destruct (createPoll_cases env formData w)
      as [[msg ->] | (user & q & _ & _ & Hq & Hlen & _ & ->)]; simpl; auto.
    apply Forall_app. split; auto. constructor; [|constructor].
    split; simpl; auto. exists (kept_options formData).
    auto using kept_options_nonempty.
  - destruct (updatePoll_cases env pollId formData w)
      as [[msg ->] | (user & q & _ & _ & Hq & Hlen & _ & ->)]; simpl; auto.
    apply Forall_map. eapply Forall_impl; [|exact Hwf]. intros p Hp.
    destruct (poll_is_owned pollId (User.id user) p); auto.
    split; simpl; auto. exists (kept_options formData).
    auto using kept_options_nonempty.
  - destruct (deletePoll_cases env pollId w) as [[msg ->] | (user & _ & ->)];
      simpl; auto.
    apply Forall_forall. intros p Hin. apply filter_In in Hin.
    rewrite Forall_forall in Hwf. now apply Hwf.
  - destruct (submitVote_cases env pollId optionIndex w)
      as [[msg ->] | (user & _ & ->)]; simpl; auto.
Qed.

Lemma actions_keep_polls_well_formed_witness :
  Forall poll_well_formed
    (polls (snd (createPoll (Fixtures.signed_in Fixtures.alice "tok")
                   (Fixtures.poll_form "tok" "Q?" ["a"; ""; "b"])
                   Fixtures.world0))).
Proof.
  assert (Hwf : Forall poll_well_formed (polls Fixtures.world0)).
  { repeat constructor; try discriminate;
      eexists; (split; [reflexivity|]); (split; [simpl; lia|]);
      repeat constructor; discriminate. }
  apply (actions_keep_polls_well_formed
           (Fixtures.signed_in Fixtures.alice "tok") "poll-1" (JsNumber.of_Z 0)
           (Fixtures.poll_form "tok" "Q?" ["a"; ""; "b"]) Fixtures.world0 Hwf).
Defined.

(** Only an acknowledged [createPoll] or [deletePoll] revalidates, and then
    exactly "/polls"; [updatePoll] and [submitVote] never revalidate a
    path, also when they are acknowledged. *)
Theorem revalidation_follows_create_and_delete (env : Env) (pollId : string)
    (optionIndex : JsNumber.t) (formData : FormData.t) (w : World) :
  revalidated (snd (createPoll env formData w))
    = (revalidated w ++ revalidated_on (fst (createPoll env formData w)))%list
  /\ revalidated (snd (deletePoll env pollId w))
    = (revalidated w ++ revalidated_on (fst (deletePoll env pollId w)))%list
  /\ revalidated (snd (updatePoll env pollId formData w)) = revalidated w
  /\ revalidated (snd (submitVote env pollId optionIndex w)) = revalidated w.
Proof.
  split; [|split; [|split]].
  - destruct (createPoll_cases env formData w)
      as [[msg ->] | (user & q & _ & _ & _ & _ & _ & ->)]; simpl; auto.
    now rewrite app_nil_r.
  - destruct (deletePoll_cases env pollId w) as [[msg ->] | (user & _ & ->)];
      simpl; auto.
    now rewrite app_nil_r.
  - destruct (updatePoll_cases env pollId formData w)
      as [[msg ->] | (user & q & _ & _ & _ & _ & _ & ->)]; simpl; auto.
  - destruct (submitVote_cases env pollId optionIndex w)
      as [[msg ->] | (user & _ & ->)]; simpl; auto.
Qed.

End ActionEffects.

Section ReadsAndRoundTrips.

Import Supabase PollActions.

Lemma single_data_inv {A} (rows : list A) (r : A) :
  data (single rows) = Some r -> rows = [r].
Proof.
  destruct rows as [|r0 [|r1 rows]]; simpl; try discriminate.
  now intros [= ->].
Qed.

Lemma poll_is_owned_spec (id uid : string) (p : Poll.t) :
  poll_is_owned id uid p = true <-> Poll.id p = id /\ Poll.user_id p = uid.
Proof.
  unfold poll_is_owned, poll_is, poll_owned_by.
  rewrite andb_true_iff, !String.eqb_eq. reflexivity.
Qed.

Lemma filter_keep {A} (f g : A -> bool) (l : list A) :
  (forall x, f x = true -> g x = true) ->
  filter f (filter g l) = filter f l.
Proof.
  intros H. induction l as [|x l IH]; simpl; auto.
  destruct (g x) eqn:Hg; simpl; rewrite IH; auto.
  destruct (f x) eqn:Hf; auto. apply H in Hf. congruence.
Qed.

Lemma filter_negb_self {A} (f : A -> bool) (l : list A) :
  filter f (filter (fun x => negb (f x)) l) = [].
Proof.
  induction l as [|x l IH]; simpl; auto.
  destruct (f x) eqn:Hf; simpl; auto. now rewrite Hf.
Qed.

Lemma filter_map_stable {A} (f : A -> bool) (h : A -> A) (l : list A) :
  (forall x, f (h x) = f x) ->
  filter f (map h l) = map h (filter f l).
Proof.
  intros H. induction l as [|x l IH]; simpl; auto.
  rewrite H. destruct (f x); simpl; now rewrite IH.
Qed.

Lemma polls_matching_own (w : World) (pollId uid : string) (poll : Poll.t) :
  polls_with_id pollId w = [poll] ->
  Poll.user_id poll = uid ->
  polls_matching pollId uid w = [poll].
Proof.
  unfold polls_matching, polls_with_id, poll_is_owned. intros Hp Hown.
  rewrite filter_both, Hp. simpl. unfold poll_owned_by.
  apply String.eqb_eq in Hown. now rewrite Hown.
Qed.

(** [getPollById] when the combined predicate selects one row. *)
Lemma getPollById_one_match (env : Env) (w : World) (id : string)
    (user : User.t) (poll : Poll.t) :
  auth_user env = Some user ->
  fault env PollsSelectById = None ->
  polls_matching id (User.id user) w = [poll] ->
  getPollById env w id = PollById.mk (Some poll) None.
Proof.
  intros Hu Hf Hm. unfold getPollById, polls_select_by_id, answer.
  rewrite Hu, Hf. fold (polls_matching id (User.id user) w). now rewrite Hm.
Qed.

(** Whatever poll [getPollById] hands out is a row of [polls] with the
    requested identifier that the signed-in caller owns, and it comes
    without an error. *)
Theorem getPollById_returns_own_poll_only (env : Env) (w : World) (id : string)
    (p : Poll.t) :
  PollById.poll (getPollById env w id) = Some p ->
  exists user,
    auth_user env = Some user
    /\ In p (polls w)
    /\ Poll.id p = id
    /\ Poll.user_id p = User.id user
    /\ PollById.error (getPollById env w id) = None.
Proof.
  unfold getPollById, polls_select_by_id, answer.
  destruct (auth_user env) as [user|]; [|discriminate].
  destruct (fault env PollsSelectById); [discriminate|].
  destruct (filter (poll_is_owned id (User.id user)) (polls w))
    as [|r [|r' rows]] eqn:Hrows; simpl; try discriminate.
  intros [= <-]. exists user.
  assert (Hin : In r (filter (poll_is_owned id (User.id user)) (polls w)))
    by (rewrite Hrows; now left).
  apply filter_In in Hin. destruct Hin as [Hin Hp].
  apply poll_is_owned_spec in Hp. tauto.
Qed.

Lemma getPollById_returns_own_poll_only_witness :
  exists user,
    auth_user (Fixtures.signed_in Fixtures.alice "tok") = Some user
    /\ In Fixtures.red_blue (polls Fixtures.world0)
    /\ Poll.id Fixtures.red_blue = "poll-3"
    /\ Poll.user_id Fixtures.red_blue = User.id user
    /\ PollById.error
         (getPollById (Fixtures.signed_in Fixtures.alice "tok") Fixtures.world0
            "poll-3") = None.
Proof.
  apply (getPollById_returns_own_poll_only
           (Fixtures.signed_in Fixtures.alice "tok") Fixtures.world0 "poll-3"
           Fixtures.red_blue eq_refl).
Defined.

(** [getPollById] answers with exactly one of a poll and an error, and
    [getUserPolls] lists no poll next to an error. *)
Theorem read_answers_poll_or_error (env : Env) (w : World) (id : string) :
  (PollById.poll (getPollById env w id) = None
     <-> PollById.error (getPollById env w id) <> None)
  /\ (UserPolls.error (getUserPolls env w) <> None ->
        UserPolls.polls (getUserPolls env w) = []).
Proof.
  split.
  - unfold getPollById, polls_select_by_id, answer.
    destruct (auth_user env) as [user|]; [|simpl; split; auto; discriminate].
    destruct (fault env PollsSelectById); [simpl; split; auto; discriminate|].
    destruct (filter (poll_is_owned id (User.id user)) (polls w))
      as [|r [|r' rows]]; simpl; split; auto; try discriminate.
    intros H. now contradiction H.
  - unfold getUserPolls, polls_select_owned, answer.
    destruct (auth_user env) as [user|]; auto.
    destruct (fault env PollsSelectOwned); simpl; auto.
    intros H. now contradiction H.
Qed.

Lemma read_answers_poll_or_error_witness :
  UserPolls.polls
    (getUserPolls (Fixtures.storage_down Fixtures.alice Fixtures.pg_denied)
       Fixtures.world0) = [].
Proof.
  apply (proj2 (read_answers_poll_or_error
                  (Fixtures.storage_down Fixtures.alice Fixtures.pg_denied)
                  Fixtures.world0 "poll-1")).
  simpl. discriminate.
Defined.

(** The owner reads their poll: when a poll is the only row with its
    identifier, the caller owns it and the query meets no failure,
    [getPollById] answers with that row and no error. *)
Theorem getPollById_owner_reads (env : Env) (w : World) (id : string)
    (user : User.t) (poll : Poll.t) :
  auth_user env = Some user ->
  fault env PollsSelectById = None ->
  polls_with_id id w = [poll] ->
  Poll.user_id poll = User.id user ->
  getPollById env w id = PollById.mk (Some poll) None.
Proof.
  intros Hu Hf Hp Hown. apply getPollById_one_match with (user := user); auto.
  now apply polls_matching_own.
Qed.

Lemma getPollById_owner_reads_witness :
  getPollById (Fixtures.signed_in Fixtures.bob "tok") Fixtures.world0 "poll-2"
    = PollById.mk (Some Fixtures.tea_coffee) None.
Proof.
  apply (getPollById_owner_reads
           (Fixtures.signed_in Fixtures.bob "tok") Fixtures.world0 "poll-2"
           Fixtures.bob Fixtures.tea_coffee eq_refl eq_refl eq_refl eq_refl).
Defined.

(** After an acknowledged [deletePoll], the same caller's [getPollById] on
    that identifier finds no poll and answers with an error. *)
Theorem deletePoll_then_getPollById (env env' : Env) (w : World) (id : string) :
  fst (deletePoll env id w) = Action.done ->
  auth_user env' = auth_user env ->
  PollById.poll (getPollById env' (snd (deletePoll env id w)) id) = None
  /\ PollById.error (getPollById env' (snd (deletePoll env id w)) id) <> None.
Proof.
  intros Hdone Hsame.
  destruct (deletePoll_cases env id w) as [[msg H] | (user & Hu & H)];
    rewrite H in *; simpl in *; [discriminate|].
  rewrite Hu in Hsame.
  rewrite (getPollById_no_match env' _ id user Hsame).
  - simpl. split; auto. discriminate.
  - unfold polls_matching. simpl. apply filter_negb_self.
Qed.

Lemma deletePoll_then_getPollById_witness :
  let env := Fixtures.signed_in Fixtures.alice "tok" in
  PollById.poll
    (getPollById env (snd (deletePoll env "poll-1" Fixtures.world0)) "poll-1")
  = None.
Proof.
  apply (deletePoll_then_getPollById
           (Fixtures.signed_in Fixtures.alice "tok")
           (Fixtures.signed_in Fixtures.alice "tok")
           Fixtures.world0 "poll-1" eq_refl eq_refl).
Defined.

(** [deletePoll] removes nothing but rows that carry the identifier and
    belong to the caller: [votes] is untouched (also the votes cast on a
    deleted poll stay), no row appears, and every selection by another
    identifier or another owner gives the rows it gave before. *)
Theorem deletePoll_removes_only_own (env : Env) (id : string) (w : World) :
  let w' := snd (deletePoll env id w) in
  votes w' = votes w
  /\ (forall p, In p (polls w') -> In p (polls w))
  /\ (forall user id' uid',
        auth_user env = Some user ->
        id' <> id \/ uid' <> User.id user ->
        polls_matching id' uid' w' = polls_matching id' uid' w).
Proof.
  destruct (deletePoll_cases env id w) as [[msg ->] | (user & Hu & ->)];
    simpl; auto.
  split; auto. split.
  - intros p Hin. now apply filter_In in Hin.
  - intros user' id' uid' Hu' Hother. rewrite Hu in Hu'. injection Hu' as <-.
    unfold polls_matching. simpl. apply filter_keep.
    intros p Hp. apply poll_is_owned_spec in Hp. destruct Hp as [Hid Hown].
    apply negb_true_iff. destruct (poll_is_owned id (User.id user) p) eqn:Hq; auto.
    apply poll_is_owned_spec in Hq. destruct Hq as [Hid' Hown'].
    destruct Hother; congruence.
Qed.

Lemma deletePoll_removes_only_own_witness :
  let env := Fixtures.signed_in Fixtures.alice "tok" in
  polls_matching "poll-3" "user-alice" (snd (deletePoll env "poll-1" Fixtures.world0))
    = polls_matching "poll-3" "user-alice" Fixtures.world0.
Proof.
  apply (proj2 (proj2 (deletePoll_removes_only_own
                         (Fixtures.signed_in Fixtures.alice "tok") "poll-1"
                         Fixtures.world0)) Fixtures.alice "poll-3" "user-alice"
           eq_refl).
  left. discriminate.
Defined.

End ReadsAndRoundTrips.

Section WritesThenReads.

Import Supabase PollActions.

(** The owner's update is what the owner reads back: after [updatePoll] on a
    poll the caller owns, with a valid form and storage answering,
    [getPollById] gives the same row with the new question and the
    non-empty option entries of the form, and identifier, owner and
    creation time as before. *)
Theorem updatePoll_then_getPollById (env env' : Env) (w : World)
    (pollId q : string) (formData : FormData.t) (user : User.t) (poll : Poll.t) :
  csrf_valid env formData ->
  FormData.get formData "question" = Some q -> q <> "" ->
  (2 <= List.length (kept_options formData))%nat ->
  auth_error env = None ->
  auth_user env = Some user ->
  fault env PollsUpdate = None ->
  polls_with_id pollId w = [poll] ->
  Poll.user_id poll = User.id user ->
  auth_user env' = Some user ->
  fault env' PollsSelectById = None ->
  fst (updatePoll env pollId formData w) = Action.done
  /\ getPollById env' (snd (updatePoll env pollId formData w)) pollId
     = PollById.mk
         (Some (Poll.mk (Poll.id poll) (Poll.user_id poll) q
                  (Some (kept_options formData)) (Poll.created_at poll)))
         None.
Proof.
  intros Hcsrf Hq Hqne Hlen Herr Hu Hf Hp Hown Hu' Hf'.
  destruct (updatePoll_cases env pollId formData w)
    as [[msg H] | (user0 & q0 & _ & Hq0 & _ & _ & Hu0 & H)].
  - exfalso. revert H. unfold updatePoll.
    apply csrf_guard_pass in Hcsrf. rewrite Hcsrf, Hq.
    fold (kept_options formData). simpl.
    apply truthy_true in Hqne. rewrite Hqne. simpl.
    replace (List.length (kept_options formData) <? 2)%nat with false
      by (symmetry; apply Nat.ltb_ge; lia).
    rewrite Herr, Hu. unfold polls_update. rewrite Hf. discriminate.
  - rewrite Hq in Hq0. injection Hq0 as <-.
    rewrite Hu in Hu0. injection Hu0 as <-.
    rewrite H. simpl. split; auto.
    apply getPollById_one_match with (user := user); auto.
    unfold polls_matching. simpl. rewrite filter_map_stable.
    + fold (polls_matching pollId (User.id user) w).
      rewrite (polls_matching_own w pollId (User.id user) poll Hp Hown). simpl.
      assert (Hmine : poll_is_owned pollId (User.id user) poll = true).
      { apply poll_is_owned_spec. split; auto.
        assert (Hin : In poll (polls_with_id pollId w)) by (rewrite Hp; now left).
        unfold polls_with_id in Hin. apply filter_In in Hin.
        destruct Hin as [_ Hid]. now apply String.eqb_eq in Hid. }
      now rewrite Hmine.
    + intros p. destruct (poll_is_owned pollId (User.id user) p) eqn:Hmatch; auto.
Qed.

Lemma updatePoll_then_getPollById_witness :
  let env := Fixtures.signed_in Fixtures.alice "tok" in
  let form := Fixtures.poll_form "tok" "Cats?" ["Yes"; ""; "No"] in
  getPollById env (snd (updatePoll env "poll-1" form Fixtures.world0)) "poll-1"
    = PollById.mk
        (Some (Poll.mk "poll-1" "user-alice" "Cats?" (Some ["Yes"; "No"]) 100))
        None.
Proof.
  assert (Hcsrf : csrf_valid (Fixtures.signed_in Fixtures.alice "tok")
                    (Fixtures.poll_form "tok" "Cats?" ["Yes"; ""; "No"])).
  { exists [("csrfToken", "tok")], "tok".
    repeat split; try reflexivity; discriminate. }
  apply (updatePoll_then_getPollById
           (Fixtures.signed_in Fixtures.alice "tok")
           (Fixtures.signed_in Fixtures.alice "tok")
           Fixtures.world0 "poll-1" "Cats?"
           (Fixtures.poll_form "tok" "Cats?" ["Yes"; ""; "No"])
           Fixtures.alice Fixtures.cats_dogs Hcsrf eq_refl
           ltac:(discriminate) ltac:(simpl; lia)
           eq_refl eq_refl eq_refl eq_refl eq_refl eq_refl eq_refl).
Defined.

(** What [createPoll] has created can be read back and is listed: after an
    acknowledged [createPoll] whose new identifier was not in use, the
    caller's [getPollById] on that identifier gives a poll they own with the
    question and the non-empty options of the form, and [getUserPolls]
    lists it. *)
Theorem createPoll_then_read (env env' : Env) (w : World) (formData : FormData.t)
    (user : User.t) :
  fst (createPoll env formData w) = Action.done ->
  polls_with_id (new_id env) w = [] ->
  auth_user env = Some user ->
  auth_user env' = Some user ->
  fault env' PollsSelectById = None ->
  fault env' PollsSelectOwned = None ->
  let w' := snd (createPoll env formData w) in
  exists p,
    getPollById env' w' (new_id env) = PollById.mk (Some p) None
    /\ Poll.user_id p = User.id user
    /\ Some (Poll.question p) = FormData.get formData "question"
    /\ Poll.options p = Some (kept_options formData)
    /\ In p (UserPolls.polls (getUserPolls env' w')).
Proof.
  intros Hdone Hfresh Hu Hu' Hf1 Hf2.
  destruct (createPoll_cases env formData w)
    as [[msg H] | (user0 & q & _ & Hq & _ & _ & Hu0 & H)];
    rewrite H in *; simpl in *; [discriminate|].
  rewrite Hu in Hu0. injection Hu0 as <-.
  eexists. split; [|split; [|split; [|split]]].
  - apply getPollById_one_match with (user := user); auto.
    unfold polls_matching. simpl. rewrite filter_app.
    fold (polls_matching (new_id env) (User.id user) w).
    rewrite (polls_matching_absent w _ _ Hfresh). simpl.
    unfold poll_is_owned, poll_is, poll_owned_by. simpl.
    now rewrite !String.eqb_refl.
  - reflexivity.
  - simpl. now rewrite Hq.
  - reflexivity.
  - unfold getUserPolls, polls_select_owned, answer. rewrite Hu', Hf2. simpl.
    eapply Permutation_in; [apply order_created_at_desc_perm|].
    apply filter_In. split.
    + apply in_or_app. right. now left.
    + unfold poll_owned_by. simpl. apply String.eqb_refl.
Qed.

Lemma createPoll_then_read_witness :
  let env := Fixtures.signed_in Fixtures.bob "tok" in
  let form := Fixtures.poll_form "tok" "Q?" ["a"; "b"] in
  exists p,
    getPollById env (snd (createPoll env form Fixtures.world0)) "row-new"
      = PollById.mk (Some p) None
    /\ Poll.user_id p = "user-bob"
    /\ Some (Poll.question p) = Some "Q?"
    /\ Poll.options p = Some ["a"; "b"]
    /\ In p (UserPolls.polls
               (getUserPolls env (snd (createPoll env form Fixtures.world0)))).
Proof.
  apply (createPoll_then_read
           (Fixtures.signed_in Fixtures.bob "tok")
           (Fixtures.signed_in Fixtures.bob "tok")
           Fixtures.world0 (Fixtures.poll_form "tok" "Q?" ["a"; "b"])
           Fixtures.bob eq_refl eq_refl eq_refl eq_refl eq_refl eq_refl).
Defined.

(** [updatePoll] checks the form as [createPoll] does, and before it asks
    who the caller is: on a request that passes the anti-forgery guard, a
    missing or empty question, or fewer than two non-empty option entries,
    gives the validation message with the world unchanged, signed in or
    not. *)
Theorem updatePoll_validation (env : Env) (pollId : string)
    (formData : FormData.t) (w : World) :
  csrf_valid env formData ->
  FormData.get formData "question" = None
  \/ FormData.get formData "question" = Some ""
  \/ (List.length (kept_options formData) < 2)%nat ->
  updatePoll env pollId formData w
    = (Action.fail "Please provide a question and at least two options.", w).
Proof.
  intros Hcsrf H. apply csrf_guard_pass in Hcsrf. unfold updatePoll.
  rewrite Hcsrf. fold (kept_options formData).
  destruct H as [Hq | [Hq | Hlen]].
  - now rewrite Hq.
  - now rewrite Hq.
  - apply Nat.ltb_lt in Hlen. rewrite Hlen. now rewrite orb_true_r.
Qed.

Lemma updatePoll_validation_witness :
  updatePoll Fixtures.anonymous "poll-1"
    (Fixtures.poll_form "tok" "Q?" ["only one"; ""]) Fixtures.world0
  = (Action.fail "Please provide a question and at least two options.",
     Fixtures.world0).
Proof.
  apply (updatePoll_validation Fixtures.anonymous "poll-1"
           (Fixtures.poll_form "tok" "Q?" ["only one"; ""]) Fixtures.world0).
  - exists [("csrfToken", "tok")], "tok".
    repeat split; try reflexivity; discriminate.
  - right. right. simpl. lia.
Defined.

(** A request that does not carry a usable token (no cookie store, no
    [csrfToken] cookie, no [csrfToken] field, an empty value, or two
    different values) is turned away by [createPoll] and [updatePoll] with
    one of the two guard messages, before the form, the session or storage
    is looked at, and the world is unchanged. *)
Theorem request_without_token_is_rejected (env : Env) (pollId : string)
    (formData : FormData.t) (w : World) :
  ~ csrf_valid env formData ->
  exists msg,
    (msg = "Invalid CSRF token." \/ msg = "CSRF validation failed.")
    /\ createPoll env formData w = (Action.fail msg, w)
    /\ updatePoll env pollId formData w = (Action.fail msg, w).
Proof.
  intros Hbad.
  destruct (csrf_guard env formData) as [msg|] eqn:Hg.
  - exists msg. split; [now apply (csrf_guard_messages env formData)|].
    split; [now apply createPoll_csrf_closed | now apply updatePoll_csrf_closed].
  - apply csrf_guard_pass in Hg. contradiction.
Qed.

Lemma request_without_token_is_rejected_witness :
  exists msg,
    (msg = "Invalid CSRF token." \/ msg = "CSRF validation failed.")
    /\ createPoll (Fixtures.signed_in Fixtures.alice "")
         (Fixtures.poll_form "" "Q?" ["a"; "b"]) Fixtures.world0
       = (Action.fail msg, Fixtures.world0)
    /\ updatePoll (Fixtures.signed_in Fixtures.alice "") "poll-1"
         (Fixtures.poll_form "" "Q?" ["a"; "b"]) Fixtures.world0
       = (Action.fail msg, Fixtures.world0).
Proof.
  apply (request_without_token_is_rejected
           (Fixtures.signed_in Fixtures.alice "") "poll-1"
           (Fixtures.poll_form "" "Q?" ["a"; "b"]) Fixtures.world0).
  intros (store & tok & Hs & Hc & Hf & Hne).
  simpl in Hs. injection Hs as <-. simpl in Hc. injection Hc as <-.
  now apply Hne.
Defined.

End WritesThenReads.

Section MoreVotes.

Import Supabase PollActions.

(** A vote is accepted from any signed-in caller, owner of the poll or not:
    when the poll is the only row with its identifier, its options are an
    array, the index lies inside it, the caller has no record on the poll
    and storage answers, [submitVote] is acknowledged and appends exactly
    one record carrying the poll, the caller and the index. *)
Theorem submitVote_accepts (env : Env) (w : World) (pollId : string)
    (optionIndex : Z) (user : User.t) (poll : Poll.t) (options : list string) :
  auth_user env = Some user ->
  storage_up env ->
  polls_with_id pollId w = [poll] ->
  Poll.options poll = Some options ->
  (0 <= optionIndex < Z.of_nat (List.length options))%Z ->
  votes_of pollId (User.id user) w = [] ->
  submitVote env pollId (JsNumber.of_Z optionIndex) w
    = (Action.done,
       mkWorld (polls w)
         (votes w ++
            [Vote.mk (new_id env) pollId (User.id user) (JsNumber.of_Z optionIndex)])
         (revalidated w)).
Proof.
  intros Hu Hup Hp Ho Hi Hv. apply integer_passes_bounds in Hi.
  rewrite (submitVote_reaches_lookup env w pollId (JsNumber.of_Z optionIndex)
             user poll options); auto.
  - cbv zeta. unfold votes_select_existing, answer.
    rewrite (Hup VotesSelectExisting), (Hup VotesInsert).
    fold (votes_of pollId (User.id user) w). now rewrite Hv.
  - apply polls_select_options_ok. auto.
Qed.

Lemma submitVote_accepts_witness :
  submitVote (Fixtures.signed_in Fixtures.alice "tok") "poll-2" (JsNumber.of_Z 1)
    Fixtures.world0
    = (Action.done,
       mkWorld (polls Fixtures.world0)
         [Vote.mk "row-new" "poll-2" "user-alice" (JsNumber.of_Z 1)] []).
Proof.
  apply (submitVote_accepts
           (Fixtures.signed_in Fixtures.alice "tok") Fixtures.world0 "poll-2" 1%Z
           Fixtures.alice Fixtures.tea_coffee ["Tea"; "Coffee"]
           eq_refl (fun c => eq_refl) eq_refl eq_refl ltac:(simpl; lia) eq_refl).
Defined.

(** A vote on a poll that is not there, or whose stored options are not an
    array, is refused before the index is looked at: with the poll fetch
    meeting no failure, an identifier no row has gives the no-row error of
    the single-row query, and a row without an option array gives "Invalid
    poll options."; the world is unchanged. *)
Theorem submitVote_without_poll (env : Env) (w : World) (pollId : string)
    (optionIndex : JsNumber.t) (user : User.t) :
  auth_user env = Some user ->
  fault env PollsSelectOptions = None ->
  (polls_with_id pollId w = [] ->
     submitVote env pollId optionIndex w = (Action.fail (message PGRST116), w))
  /\ (forall poll,
        polls_with_id pollId w = [poll] ->
        Poll.options poll = None ->
        submitVote env pollId optionIndex w
          = (Action.fail "Invalid poll options.", w)).
Proof.
  intros Hu Hf. unfold submitVote, polls_select_options, answer.
  rewrite Hu, Hf. fold (polls_with_id pollId w). split.
  - now intros ->.
  - intros poll -> Ho. simpl. now rewrite Ho.
Qed.

Lemma submitVote_without_poll_witness :
  submitVote (Fixtures.signed_in Fixtures.alice "tok") "poll-404" (JsNumber.of_Z 0)
    Fixtures.world0
    = (Action.fail "JSON object requested, multiple (or no) rows returned",
       Fixtures.world0).
Proof.
  apply (proj1 (submitVote_without_poll
                  (Fixtures.signed_in Fixtures.alice "tok") Fixtures.world0
                  "poll-404" (JsNumber.of_Z 0) Fixtures.alice eq_refl eq_refl)
           eq_refl).
Defined.

(** The duplicate check refuses one existing record, not several: when the
    caller already has two or more records on the poll, the lookup answers
    with the multiple-rows error, whose code PGRST116 is the one
    [submitVote] passes over, and with storage answering a further record
    is appended. *)
Theorem submitVote_several_records_pass (env : Env) (w : World) (pollId : string)
    (optionIndex : Z) (user : User.t) (poll : Poll.t) (options : list string) :
  auth_user env = Some user ->
  storage_up env ->
  polls_with_id pollId w = [poll] ->
  Poll.options poll = Some options ->
  (0 <= optionIndex < Z.of_nat (List.length options))%Z ->
  (2 <= List.length (votes_of pollId (User.id user) w))%nat ->
  submitVote env pollId (JsNumber.of_Z optionIndex) w
    = (Action.done,
       mkWorld (polls w)
         (votes w ++
            [Vote.mk (new_id env) pollId (User.id user) (JsNumber.of_Z optionIndex)])
         (revalidated w)).
Proof.
  intros Hu Hup Hp Ho Hi Hv. apply integer_passes_bounds in Hi.
  rewrite (submitVote_reaches_lookup env w pollId (JsNumber.of_Z optionIndex)
             user poll options); auto.
  - cbv zeta. unfold votes_select_existing, answer.
    rewrite (Hup VotesSelectExisting), (Hup VotesInsert).
    fold (votes_of pollId (User.id user) w).
    destruct (votes_of pollId (User.id user) w) as [|v [|v' rows]];
      simpl in Hv; try lia. reflexivity.
  - apply polls_select_options_ok. auto.
Qed.

Lemma submitVote_several_records_pass_witness :
  let twice := mkWorld (polls Fixtures.world0)
                 [Vote.mk "v1" "poll-1" "user-bob" (JsNumber.of_Z 0);
                  Vote.mk "v2" "poll-1" "user-bob" (JsNumber.of_Z 1)] [] in
  submitVote (Fixtures.signed_in Fixtures.bob "tok") "poll-1" (JsNumber.of_Z 0) twice
    = (Action.done,
       mkWorld (polls twice)
         (votes twice ++
            [Vote.mk "row-new" "poll-1" "user-bob" (JsNumber.of_Z 0)]) []).
Proof.
  apply (submitVote_several_records_pass
           (Fixtures.signed_in Fixtures.bob "tok")
           (mkWorld (polls Fixtures.world0)
              [Vote.mk "v1" "poll-1" "user-bob" (JsNumber.of_Z 0);
               Vote.mk "v2" "poll-1" "user-bob" (JsNumber.of_Z 1)] [])
           "poll-1" 0%Z Fixtures.bob Fixtures.cats_dogs ["Cats"; "Dogs"]
           eq_refl (fun c => eq_refl) eq_refl eq_refl ltac:(simpl; lia)
           ltac:(simpl; lia)).
Defined.

(** One record per (poll, voter) pair is an invariant of the six actions run
    one after another: if it holds before, it holds after [createPoll],
    [updatePoll], [deletePoll], and after a [submitVote] whose lookup meets
    no failure. *)
Theorem actions_keep_votes_unique (env : Env) (pollId : string)
    (optionIndex : JsNumber.t) (formData : FormData.t) (w : World) :
  votes_unique w ->
  votes_unique (snd (createPoll env formData w))
  /\ votes_unique (snd (updatePoll env pollId formData w))
  /\ votes_unique (snd (deletePoll env pollId w))
  /\ (fault env VotesSelectExisting = None ->
        votes_unique (snd (submitVote env pollId optionIndex w))).
Proof.
  intros Huniq.
  assert (Hframe : forall w', votes w' = votes w -> votes_unique w').
  { intros w' Hv p u. unfold votes_of. rewrite Hv. apply Huniq. }
  split; [|split; [|split]].
  - apply Hframe.
    destruct (createPoll_cases env formData w)
      as [[msg ->] | (user & q & _ & _ & _ & _ & _ & ->)]; auto.
  - apply Hframe.
    destruct (updatePoll_cases env pollId formData w)
      as [[msg ->] | (user & q & _ & _ & _ & _ & _ & ->)]; auto.
  - apply Hframe.
    destruct (deletePoll_cases env pollId w) as [[msg ->] | (user & _ & ->)]; auto.
  - intros Hf. now apply submitVote_keeps_votes_unique.
Qed.

Lemma actions_keep_votes_unique_witness :
  votes_unique
    (snd (submitVote (Fixtures.signed_in Fixtures.bob "tok") "poll-1"
            (JsNumber.of_Z 1)
            Fixtures.world0)).
Proof.
  assert (H0 : votes_unique Fixtures.world0) by (intros p u; simpl; lia).
  apply (proj2 (proj2 (proj2 (actions_keep_votes_unique
                                (Fixtures.signed_in Fixtures.bob "tok") "poll-1"
                                (JsNumber.of_Z 1)
                                [] Fixtures.world0 H0))) eq_refl).
Defined.

End MoreVotes.

(** * The poll creation form *)

Section Splitting.

Import JsString.

Lemma string_app_assoc (a b c : string) : (a ++ b) ++ c = a ++ (b ++ c).
Proof. induction a as [|x a IH]; simpl; auto. now rewrite IH. Qed.

Lemma string_app_nil_r (a : string) : a ++ "" = a.
Proof. induction a as [|x a IH]; simpl; auto. now rewrite IH. Qed.

Lemma prefix_app (a b : string) : String.prefix a (a ++ b) = true.
Proof.
  induction a as [|x a IH]; simpl.
  - now destruct b.
  - destruct (Ascii.ascii_dec x x); [exact IH | congruence].
Qed.

Lemma prefix_other_char (c0 c : Ascii.ascii) (sep s : string) :
  Ascii.eqb c c0 = false -> String.prefix (String c0 sep) (String c s) = false.
Proof.
  intros H. simpl. destruct (Ascii.ascii_dec c0 c) as [->|]; auto.
  now rewrite Ascii.eqb_refl in H.
Qed.

Lemma occurs_app (c : Ascii.ascii) (a b : string) :
  occurs c (a ++ b) = occurs c a || occurs c b.
Proof.
  induction a as [|x a IH]; simpl; auto. now rewrite IH, orb_assoc.
Qed.

Variable c0 : Ascii.ascii.
Variable sep' : string.
Let sep := String c0 sep'.

(** Passing over the rest of a matched separator. *)
Lemma split_from_skip (s1 rest cur : string) :
  split_from sep (String.length s1) cur (s1 ++ rest) = split_from sep 0 cur rest.
Proof. induction s1 as [|x s1 IH]; simpl; auto. Qed.

(** Reading a piece in which the separator cannot start. *)
Lemma split_from_item (item rest cur : string) :
  occurs c0 item = false ->
  split_from sep 0 cur (item ++ rest) = split_from sep 0 (cur ++ item) rest.
Proof.
  revert cur. induction item as [|x item IH]; intros cur Hno.
  - simpl. now rewrite string_app_nil_r.
  - simpl in Hno. apply orb_false_iff in Hno. destruct Hno as [Hx Hno].
    change (String x item ++ rest) with (String x (item ++ rest)).
    cbn [split_from]. unfold sep at 1. rewrite (prefix_other_char _ _ _ _ Hx).
    fold sep. rewrite (IH _ Hno), string_app_assoc. reflexivity.
Qed.

(** Meeting the separator closes the piece. *)
Lemma split_from_sep (rest cur : string) :
  split_from sep 0 cur (sep ++ rest) = cur :: split_from sep 0 "" rest.
Proof.
  unfold sep at 2. change (String c0 sep' ++ rest) with (String c0 (sep' ++ rest)).
  cbn [split_from].
  change (String c0 (sep' ++ rest)) with (sep ++ rest).
  rewrite prefix_app. f_equal.
  replace (String.length sep - 1) with (String.length sep')
    by (unfold sep; simpl; lia).
  apply split_from_skip.
Qed.

Lemma split_item_sep (item rest : string) :
  occurs c0 item = false ->
  split sep (item ++ sep ++ rest) = item :: split sep rest.
Proof.
  intros Hno. unfold split. now rewrite split_from_item, split_from_sep.
Qed.

Lemma split_item (item : string) :
  occurs c0 item = false -> split sep item = [item].
Proof.
  intros Hno. unfold split.
  rewrite <- (string_app_nil_r item) at 1. now rewrite split_from_item.
Qed.

(** Splitting a string that was joined from pieces free of the separator's
    first character gives the pieces back. *)
Lemma split_concat (items : list string) :
  items <> [] ->
  Forall (fun item => occurs c0 item = false) items ->
  split sep (String.concat sep items) = items.
Proof.
  induction items as [|x items IH]; [congruence|]. intros _ Hall.
  inversion Hall as [|? ? Hx Hrest]; subst.
  destruct items as [|y items].
  - simpl. now apply split_item.
  - change (String.concat sep (x :: y :: items))
      with (x ++ sep ++ String.concat sep (y :: items)).
    rewrite split_item_sep by assumption. f_equal. apply IH; auto. discriminate.
Qed.

End Splitting.

Section OptionInputs.

Import PollCreateForm.

Lemma map_from_length (i idx : nat) (value : string) (opts : list string) :
  List.length (map_from i idx value opts) = List.length opts.
Proof.
  revert i. induction opts as [|opt opts IH]; intros i; simpl; auto.
Qed.

Lemma map_from_nth (i idx : nat) (value : string) (opts : list string) (j : nat) :
  nth_error (map_from i idx value opts) j =
    if Nat.eqb (i + j) idx
    then (if (j <? List.length opts)%nat then Some value else None)
    else nth_error opts j.
Proof.
  revert i j. induction opts as [|opt opts IH]; intros i j.
  - destruct j; simpl; now destruct (Nat.eqb _ idx).
  - destruct j as [|j]; simpl.
    + rewrite Nat.add_0_r. now destruct (Nat.eqb i idx).
    + rewrite IH. replace (S i + j)%nat with (i + S j)%nat by lia. reflexivity.
Qed.

Lemma filter_from_past (i idx : nat) (opts : list string) :
  (idx < i)%nat -> filter_from i idx opts = opts.
Proof.
  revert i. induction opts as [|opt opts IH]; intros i Hlt; simpl; auto.
  replace (Nat.eqb i idx) with false by (symmetry; apply Nat.eqb_neq; lia).
  simpl. rewrite IH; auto.
Qed.

Lemma filter_from_cut (i idx : nat) (opts : list string) :
  (i <= idx)%nat ->
  filter_from i idx opts
    = (firstn (idx - i) opts ++ skipn (S (idx - i)) opts)%list.
Proof.
  revert i. induction opts as [|opt opts IH]; intros i Hle.
  - simpl. now rewrite firstn_nil.
  - cbn [filter_from]. destruct (Nat.eqb i idx) eqn:Heq; cbn [negb].
    + apply Nat.eqb_eq in Heq. subst idx. rewrite Nat.sub_diag. simpl.
      apply filter_from_past. lia.
    + apply Nat.eqb_neq in Heq. rewrite IH by lia.
      replace (idx - i)%nat with (S (idx - S i)) by lia. reflexivity.
Qed.

(** Typing into an option input changes that entry and nothing else: the
    list keeps its length, position [idx] holds the new value, every other
    position holds what it held; an index past the end changes nothing. *)
Theorem handleOptionChange_sets_one_entry (idx : nat) (value : string)
    (opts : list string) :
  List.length (handleOptionChange idx value opts) = List.length opts
  /\ ((idx < List.length opts)%nat ->
        nth_error (handleOptionChange idx value opts) idx = Some value)
  /\ (forall j, j <> idx ->
        nth_error (handleOptionChange idx value opts) j = nth_error opts j)
  /\ ((List.length opts <= idx)%nat -> handleOptionChange idx value opts = opts).
Proof.
  unfold handleOptionChange. split; [apply map_from_length|]. split; [|split].
  - intros Hlt. rewrite map_from_nth. simpl. rewrite Nat.eqb_refl.
    apply Nat.ltb_lt in Hlt. now rewrite Hlt.
  - intros j Hne. rewrite map_from_nth. simpl.
    apply Nat.eqb_neq in Hne. now rewrite Hne.
  - intros Hge. apply nth_error_ext. intros j. rewrite map_from_nth. simpl.
    destruct (Nat.eqb j idx) eqn:Heq; auto.
    apply Nat.eqb_eq in Heq. subst j.
    replace (idx <? List.length opts)%nat with false
      by (symmetry; apply Nat.ltb_ge; lia).
    symmetry. now apply nth_error_None.
Qed.

Lemma handleOptionChange_sets_one_entry_witness :
  nth_error (handleOptionChange 1 "Dogs" ["Cats"; ""; "Birds"]) 1 = Some "Dogs"
  /\ handleOptionChange 7 "Dogs" ["Cats"; ""] = ["Cats"; ""].
Proof.
  split.
  - apply (proj1 (proj2 (handleOptionChange_sets_one_entry 1 "Dogs"
                           ["Cats"; ""; "Birds"]))). simpl. lia.
  - apply (proj2 (proj2 (proj2 (handleOptionChange_sets_one_entry 7 "Dogs"
                                  ["Cats"; ""])))). simpl. lia.
Defined.

(** Removing an option, from the render that shows the current list: with
    more than two entries the entry at [idx] is cut out and the others keep
    their order (an index past the end cuts nothing); with two entries or
    fewer the list stays as it is. *)
Theorem removeOption_cuts_one_entry (idx : nat) (opts : list string) :
  ((2 < List.length opts)%nat ->
     removeOption opts idx opts
       = (firstn idx opts ++ skipn (S idx) opts)%list)
  /\ ((List.length opts <= 2)%nat -> removeOption opts idx opts = opts).
Proof.
  unfold removeOption. split; intros H.
  - apply Nat.ltb_lt in H. rewrite H. rewrite filter_from_cut by lia.
    now rewrite Nat.sub_0_r.
  - replace (2 <? List.length opts)%nat with false
      by (symmetry; apply Nat.ltb_ge; lia). reflexivity.
Qed.

Lemma removeOption_cuts_one_entry_witness :
  removeOption ["a"; "b"; "c"] 1 ["a"; "b"; "c"] = ["a"; "c"]
  /\ removeOption ["a"; "b"] 0 ["a"; "b"] = ["a"; "b"].
Proof.
  split.
  - apply (proj1 (removeOption_cuts_one_entry 1 ["a"; "b"; "c"])). simpl. lia.
  - apply (proj2 (removeOption_cuts_one_entry 0 ["a"; "b"])). simpl. lia.
Defined.

Lemma handle_keeps_two (options : list string) (e : OptionEvent) :
  (2 <= List.length options)%nat -> (2 <= List.length (handle options e))%nat.
Proof.
  intros H. destruct e as [idx value| |idx]; simpl.
  - unfold handleOptionChange. now rewrite map_from_length.
  - unfold addOption. rewrite length_app. simpl. lia.
  - unfold removeOption.
    destruct (2 <? List.length options)%nat eqn:Hlen; auto.
    apply Nat.ltb_lt in Hlen. rewrite filter_from_cut by lia.
    rewrite length_app, length_firstn, length_skipn. lia.
Qed.

(** The form never shows fewer than two option inputs: starting from the
    two empty inputs, whatever the user types, adds and removes, each event
    handled by the render that shows the current list, the list of options
    has at least two entries. *)
Theorem form_keeps_two_options (events : list OptionEvent) :
  (2 <= List.length (handle_all events))%nat.
Proof.
  unfold handle_all.
  assert (H : (2 <= List.length initial_options)%nat) by (simpl; lia).
  revert H. generalize initial_options.
  induction events as [|e events IH]; intros options H; simpl; auto.
  apply IH. now apply handle_keeps_two.
Qed.

End OptionInputs.

Section CookieToken.

Import JsString Browser PollCreateForm PollActions.

Lemma prefix_name_inv (a n v : string) :
  occurs "="%char a = false ->
  occurs "="%char n = false ->
  String.prefix (a ++ "=") (n ++ "=" ++ v) = true -> n = a.
Proof.
  revert n. induction a as [|x a IH]; intros n Ha Hn.
  - destruct n as [|c n]; auto. simpl in Hn. apply orb_false_iff in Hn.
    destruct Hn as [Hc _].
    change (("" ++ "=")%string) with (String "="%char "").
    change (String c n ++ "=" ++ v) with (String c (n ++ "=" ++ v)).
    rewrite (prefix_other_char _ _ _ _ Hc). discriminate.
  - simpl in Ha. apply orb_false_iff in Ha. destruct Ha as [Hx Ha].
    destruct n as [|c n].
    + change (String x a ++ "=") with (String x (a ++ "=")).
      change ("" ++ "=" ++ v) with (String "="%char v).
      rewrite Ascii.eqb_sym in Hx.
      rewrite (prefix_other_char _ _ _ _ Hx). discriminate.
    + simpl in Hn. apply orb_false_iff in Hn. destruct Hn as [_ Hn].
      simpl. destruct (Ascii.ascii_dec x c) as [->|]; [|discriminate].
      intros H. f_equal. now apply IH.
Qed.

Lemma startsWith_name (name n v : string) :
  occurs "="%char name = false ->
  occurs "="%char n = false ->
  startsWith (name ++ "=") (n ++ "=" ++ v) = (n =? name).
Proof.
  intros Hname Hn. unfold startsWith.
  destruct (String.eqb_spec n name) as [->|Hne].
  - rewrite <- string_app_assoc. apply prefix_app.
  - destruct (String.prefix _ _) eqn:Hp; auto.
    apply prefix_name_inv in Hp; auto. contradiction.
Qed.

Lemma find_token_cookie (jar : Cookies.t) :
  Forall (fun e => occurs "="%char (fst e) = false) jar ->
  find (startsWith "csrfToken=") (map (fun e => fst e ++ "=" ++ snd e) jar)
    = option_map (fun v => "csrfToken" ++ "=" ++ v)
        (Cookies.get_value jar "csrfToken").
Proof.
  induction 1 as [|[n v] jar Hn Hall IH]; [reflexivity|].
  cbn [map find Cookies.get_value fst snd] in *.
  change (startsWith "csrfToken=" (n ++ "=" ++ v))
    with (startsWith ("csrfToken" ++ "=") (n ++ "=" ++ v)).
  rewrite (startsWith_name "csrfToken" n v eq_refl Hn).
  destruct (String.eqb_spec n "csrfToken") as [->|]; [reflexivity | exact IH].
Qed.

Lemma split_document_cookie (jar : Cookies.t) :
  jar_clean jar -> jar <> [] ->
  split "; " (document_cookie jar) = map (fun e => fst e ++ "=" ++ snd e) jar.
Proof.
  intros Hclean Hne. unfold document_cookie.
  apply (split_concat ";"%char " ").
  - destruct jar; [congruence | discriminate].
  - apply Forall_map. eapply Forall_impl; [|exact Hclean].
    intros e (Hn & _ & Hv). cbv beta. rewrite !occurs_app, Hn, Hv. reflexivity.
Qed.

(** What the form reads from [document.cookie]: of the cookie called
    [csrfToken], the part of its value before the first '='. *)
Lemma csrf_from_cookie_spec (jar : Cookies.t) :
  jar_clean jar ->
  csrf_from_cookie (document_cookie jar)
    = match Cookies.get_value jar "csrfToken" with
      | Some v => hd_error (split "=" v)
      | None => None
      end.
Proof.
  intros Hclean. unfold csrf_from_cookie.
  destruct jar as [|e jar]; [reflexivity|].
  rewrite split_document_cookie by (auto; discriminate).
  rewrite find_token_cookie
    by (eapply Forall_impl; [|exact Hclean]; intros ? (_ & H & _); exact H).
  destruct (Cookies.get_value (e :: jar) "csrfToken") as [v|];
    cbn [option_map]; [|reflexivity].
  rewrite (split_item_sep "="%char "" "csrfToken" v eq_refl).
  cbn [nth_error]. now destruct (split "=" v).
Qed.

(** The form reads back the token the cookie holds: for a jar of well-formed
    cookies, a [csrfToken] value without '=' is what the form attaches, and
    without a [csrfToken] cookie the form finds no token. *)
Theorem csrf_from_cookie_reads_cookie (jar : Cookies.t) :
  jar_clean jar ->
  (Cookies.get_value jar "csrfToken" = None ->
     csrf_from_cookie (document_cookie jar) = None)
  /\ (forall tok,
        Cookies.get_value jar "csrfToken" = Some tok ->
        occurs "="%char tok = false ->
        csrf_from_cookie (document_cookie jar) = Some tok).
Proof.
  intros Hclean. rewrite (csrf_from_cookie_spec jar Hclean). split.
  - now intros ->.
  - intros tok -> Hno. now rewrite (split_item "="%char "" tok Hno).
Qed.

Lemma csrf_from_cookie_reads_cookie_witness :
  csrf_from_cookie
    (document_cookie [("theme", "dark"); ("csrfToken", "9f3c-77"); ("lang", "en")])
  = Some "9f3c-77".
Proof.
  apply (proj2 (csrf_from_cookie_reads_cookie
                  [("theme", "dark"); ("csrfToken", "9f3c-77"); ("lang", "en")]
                  ltac:(repeat constructor)) "9f3c-77" eq_refl eq_refl).
Defined.

(** A token with '=' in it is cut short: the form attaches only the part of
    the cookie value before its first '='. *)
Theorem csrf_from_cookie_stops_at_equals (jar : Cookies.t) (a b : string) :
  jar_clean jar ->
  Cookies.get_value jar "csrfToken" = Some (a ++ "=" ++ b) ->
  occurs "="%char a = false ->
  csrf_from_cookie (document_cookie jar) = Some a.
Proof.
  intros Hclean Hv Hno. rewrite (csrf_from_cookie_spec jar Hclean), Hv.
  now rewrite (split_item_sep "="%char "" a b Hno).
Qed.

Lemma csrf_from_cookie_stops_at_equals_witness :
  csrf_from_cookie (document_cookie [("csrfToken", "c2VjcmV0IQ==")])
    = Some "c2VjcmV0IQ".
Proof.
  apply (csrf_from_cookie_stops_at_equals
           [("csrfToken", "c2VjcmV0IQ==")] "c2VjcmV0IQ" "="
           ltac:(repeat constructor) eq_refl eq_refl).
Defined.

End CookieToken.

Section FormSubmission.

Import JsString Browser PollCreateForm PollActions.

Lemma getAll_set_first (fd : FormData.t) (name value : string) :
  existsb (fun e => fst e =? name) fd = true ->
  FormData.getAll (set_first fd name value) name = [value].
Proof.
  unfold FormData.getAll.
  induction fd as [|[n v] fd IH]; simpl; [discriminate|].
  destruct (n =? name) eqn:Hn; simpl.
  - intros _. rewrite String.eqb_refl. simpl. f_equal.
    rewrite (filter_negb_self (fun e : string * string => fst e =? name)).
    reflexivity.
  - intros H. rewrite Hn. now apply IH.
Qed.

Lemma getAll_set_first_other (fd : FormData.t) (name value other : string) :
  other <> name ->
  FormData.getAll (set_first fd name value) other = FormData.getAll fd other.
Proof.
  intros Hne. unfold FormData.getAll.
  induction fd as [|[n v] fd IH]; simpl; auto.
  destruct (n =? name) eqn:Hn; simpl.
  - apply String.eqb_eq in Hn. subst n.
    replace (name =? other) with false
      by (symmetry; apply String.eqb_neq; congruence).
    f_equal. apply filter_keep. intros e He.
    apply String.eqb_eq in He. apply negb_true_iff. apply String.eqb_neq.
    congruence.
  - destruct (n =? other); simpl; now rewrite IH.
Qed.

(** [formData.set] then [getAll]: the name holds the one new value, every
    other name holds what it held. *)
Lemma getAll_FormData_set (fd : FormData.t) (name value : string) :
  FormData.getAll (FormData_set fd name value) name = [value].
Proof.
  unfold FormData_set.
  destruct (existsb (fun e => fst e =? name) fd) eqn:Hex.
  - now apply getAll_set_first.
  - unfold FormData.getAll. rewrite filter_app, map_app. simpl.
    rewrite String.eqb_refl. simpl.
    assert (Hnone : filter (fun e : string * string => fst e =? name) fd = []).
    { induction fd as [|e fd IH]; simpl in *; auto.
      apply orb_false_iff in Hex. destruct Hex as [He Hex].
      rewrite He. auto. }
    now rewrite Hnone.
Qed.

Lemma getAll_FormData_set_other (fd : FormData.t) (name value other : string) :
  other <> name ->
  FormData.getAll (FormData_set fd name value) other = FormData.getAll fd other.
Proof.
  intros Hne. unfold FormData_set.
  destruct (existsb (fun e => fst e =? name) fd).
  - now apply getAll_set_first_other.
  - unfold FormData.getAll. rewrite filter_app, map_app. simpl.
    replace (name =? other) with false
      by (symmetry; apply String.eqb_neq; congruence).
    simpl. now rewrite app_nil_r.
Qed.

(** [createPoll] on a request that passes every check. *)
Lemma createPoll_accepts (env : Env) (formData : FormData.t) (w : World)
    (user : User.t) (q : string) :
  csrf_valid env formData ->
  FormData.get formData "question" = Some q -> q <> "" ->
  (2 <= List.length (kept_options formData))%nat ->
  auth_error env = None ->
  auth_user env = Some user ->
  fault env PollsInsert = None ->
  createPoll env formData w
    = (Action.done,
       mkWorld
         (polls w ++
            [Poll.mk (new_id env) (User.id user) q
               (Some (kept_options formData)) (now env)])
         (votes w) (revalidated w ++ ["/polls"])).
Proof.
  intros Hcsrf Hq Hne Hlen Herr Hu Hf.
  apply csrf_guard_pass in Hcsrf. unfold createPoll. rewrite Hcsrf, Hq.
  fold (kept_options formData). simpl.
  apply truthy_true in Hne. rewrite Hne. simpl.
  replace (List.length (kept_options formData) <? 2)%nat with false
    by (symmetry; apply Nat.ltb_ge; lia).
  rewrite Herr, Hu. unfold Supabase.polls_insert. now rewrite Hf.
Qed.

(** Form and action together.  Let the form read the token [tok] from
    [document.cookie], non-empty, and let the server's cookie store hold the
    same value under [csrfToken].  When the payload carries a question and
    two non-empty options, the caller is signed in and the insert meets no
    failure, a submission creates the caller's poll with the non-empty
    options and shows the success notice, whatever [csrfToken] field the
    payload held before: the form's [set] replaces it and leaves question
    and options alone. *)
Theorem form_submission_creates_poll (env : Env) (w : World) (store : Cookies.t)
    (documentCookie tok q : string) (formData : FormData.t) (user : User.t) :
  csrf_from_cookie documentCookie = Some tok ->
  tok <> "" ->
  cookie_store env = Some store ->
  Cookies.get_value store "csrfToken" = Some tok ->
  FormData.get formData "question" = Some q -> q <> "" ->
  (2 <= List.length (kept_options formData))%nat ->
  auth_error env = None ->
  auth_user env = Some user ->
  fault env PollsInsert = None ->
  action (Some documentCookie) formData env w
    = (mkView None true,
       mkWorld
         (polls w ++
            [Poll.mk (new_id env) (User.id user) q
               (Some (kept_options formData)) (now env)])
         (votes w) (revalidated w ++ ["/polls"])).
Proof.
  intros Hread Hne Hs Htok Hq Hqne Hlen Herr Hu Hf.
  unfold action, attach_csrf. rewrite Hread.
  pose proof Hne as Htruthy. apply truthy_true in Htruthy. rewrite Htruthy.
  set (sent := FormData_set formData "csrfToken" tok).
  assert (Hcsrf : csrf_valid env sent).
  { unfold csrf_valid. exists store, tok. split; auto. split; auto. split; auto.
    unfold sent, FormData.get. now rewrite getAll_FormData_set. }
  assert (Hq' : FormData.get sent "question" = Some q).
  { unfold sent, FormData.get in *.
    rewrite getAll_FormData_set_other; auto. discriminate. }
  assert (Hkept : kept_options sent = kept_options formData).
  { unfold sent, kept_options.
    rewrite getAll_FormData_set_other; auto. discriminate. }
  rewrite (createPoll_accepts env sent w user q); auto.
  - now rewrite Hkept.
  - now rewrite Hkept.
Qed.

Lemma form_submission_creates_poll_witness :
  action (Some (document_cookie [("theme", "dark"); ("csrfToken", "tok")]))
    [("csrfToken", "stale"); ("question", "Q?"); ("options", "a");
     ("options", ""); ("options", "b")]
    (Fixtures.signed_in Fixtures.alice "tok")
    Fixtures.world0
  = (mkView None true,
     mkWorld
       (polls Fixtures.world0 ++
          [Poll.mk "row-new" "user-alice" "Q?" (Some ["a"; "b"]) 400])
       [] ["/polls"]).
Proof.
  apply (form_submission_creates_poll
           (Fixtures.signed_in Fixtures.alice "tok") Fixtures.world0
           [("csrfToken", "tok")]
           (document_cookie [("theme", "dark"); ("csrfToken", "tok")]) "tok" "Q?"
           [("csrfToken", "stale"); ("question", "Q?"); ("options", "a");
            ("options", ""); ("options", "b")]
           Fixtures.alice eq_refl ltac:(discriminate) eq_refl eq_refl eq_refl
           ltac:(discriminate) ltac:(simpl; lia) eq_refl eq_refl eq_refl).
Defined.

(** Form and action together, when the two sides disagree.  Let the form
    read a non-empty token from [document.cookie] that is not the value the
    server's cookie store holds under [csrfToken] (as when the form has cut
    the value at an '=').  Every submission is answered "Invalid CSRF
    token." with nothing created, also when the payload already carried the
    server's value: the form's [set] has replaced it. *)
Theorem form_submission_with_other_token (env : Env) (w : World)
    (store : Cookies.t) (documentCookie sent : string) (formData : FormData.t) :
  csrf_from_cookie documentCookie = Some sent ->
  sent <> "" ->
  cookie_store env = Some store ->
  Cookies.get_value store "csrfToken" <> Some sent ->
  action (Some documentCookie) formData env w
    = (mkView (Some "Invalid CSRF token.") false, w).
Proof.
  intros Hread Hne Hs Hother.
  unfold action, attach_csrf. rewrite Hread.
  apply truthy_true in Hne. rewrite Hne.
  rewrite (createPoll_csrf_closed env _ w "Invalid CSRF token."); [reflexivity|].
  apply (csrf_guard_rejects env _ store Hs). right. right.
  unfold FormData.get. rewrite getAll_FormData_set. exact Hother.
Qed.

Lemma form_submission_with_other_token_witness :
  action (Some (document_cookie [("csrfToken", "c2VjcmV0IQ==")]))
    (Fixtures.poll_form "c2VjcmV0IQ==" "Q?" ["a"; "b"])
    (Fixtures.signed_in Fixtures.alice "c2VjcmV0IQ==")
    Fixtures.world0
  = (mkView (Some "Invalid CSRF token.") false, Fixtures.world0).
Proof.
  apply (form_submission_with_other_token
           (Fixtures.signed_in Fixtures.alice "c2VjcmV0IQ==") Fixtures.world0
           [("csrfToken", "c2VjcmV0IQ==")]
           (document_cookie [("csrfToken", "c2VjcmV0IQ==")]) "c2VjcmV0IQ"
           (Fixtures.poll_form "c2VjcmV0IQ==" "Q?" ["a"; "b"])
           eq_refl ltac:(discriminate) eq_refl ltac:(discriminate)).
Defined.

End FormSubmission.

(** * The auth context *)

Section AuthProvider.

Import AuthContext.

Lemma run_app (st : State) (xs ys : list Event) :
  run st (xs ++ ys) = run (run st xs) ys.
Proof. unfold run. apply fold_left_app. Qed.

(** A session the provider holds always agrees with the user it holds:
    after any sequence of events, if [session] is set then [user] is
    [session.user]. *)
Theorem auth_user_follows_session (events : list Event) (s : Session) :
  session (run initial events) = Some s ->
  user (run initial events) = session_user s.
Proof.
  revert s. induction events as [|e events IH] using rev_ind; intros s.
  - discriminate.
  - rewrite run_app. simpl. set (st := run initial events) in *.
    destruct e as [u err|s'|]; simpl.
    + destruct (mounted st); simpl; [discriminate | apply IH].
    + destruct (subscribed st); simpl; [|apply IH].
      now intros [= ->].
    + apply IH.
Qed.

Lemma auth_user_follows_session_witness :
  user (run initial
          [GetUserResolved None None;
           AuthStateChange (Some (mkSession (Some Fixtures.alice)))])
  = Some Fixtures.alice.
Proof.
  apply (auth_user_follows_session
           [GetUserResolved None None;
            AuthStateChange (Some (mkSession (Some Fixtures.alice)))]
           (mkSession (Some Fixtures.alice)) eq_refl).
Defined.

Lemma not_in_snoc (e : Event) (events : list Event) :
  ~ In Cleanup events -> e <> Cleanup -> ~ In Cleanup (events ++ [e]).
Proof.
  intros Hno He Hin. apply in_app_or in Hin. destruct Hin as [Hin | [Hin | []]];
    auto.
Qed.

Lemma step_keeps_mounted (st : State) (e : Event) :
  e <> Cleanup -> mounted (step st e) = mounted st.
Proof.
  intros He. destruct e as [u err|s|]; simpl.
  - destruct (mounted st) eqn:Hm; auto.
  - destruct (subscribed st); auto.
  - congruence.
Qed.

(** While the effect is mounted, no cleanup has run, and conversely. *)
Lemma mounted_iff_no_cleanup (events : list Event) :
  mounted (run initial events) = true <-> ~ In Cleanup events.
Proof.
  induction events as [|e events IH] using rev_ind.
  - simpl. tauto.
  - rewrite run_app. cbn [run fold_left].
    destruct (match e with Cleanup => true | _ => false end) eqn:Hkind.
    + destruct e; try discriminate. simpl. split; [discriminate|].
      intros H. exfalso. apply H, in_or_app. right. now left.
    + assert (He : e <> Cleanup) by (intros ->; discriminate).
      rewrite (step_keeps_mounted _ _ He), IH. split.
      * intros H. now apply not_in_snoc.
      * intros H Hin. apply H, in_or_app. auto.
Qed.

Lemma loading_stays_false (st : State) (events : list Event) :
  loading st = false -> loading (run st events) = false.
Proof.
  revert st. induction events as [|e events IH]; intros st H; auto.
  simpl. apply IH. destruct e as [u err|s|]; simpl; auto.
  - now destruct (mounted st).
  - now destruct (subscribed st).
Qed.

(** [loading] ends only with an answer of [getUser]: sign-in and sign-out
    events never end it, and when the cleanup runs before the answer
    arrives it never ends.  After any sequence of events, [loading] is
    false exactly when an answer of [getUser] arrived before any cleanup. *)
Theorem auth_loading_ends_with_getUser (events : list Event) :
  loading (run initial events) = false <->
  exists before after,
    events = (before ++ after)%list
    /\ existsb is_getUser before = true
    /\ ~ In Cleanup before.
Proof.
  split.
  - induction events as [|e events IH] using rev_ind; [discriminate|].
    rewrite run_app. simpl.
    assert (Hextend : loading (run initial events) = false ->
              exists before after,
                (events ++ [e])%list = (before ++ after)%list
                /\ existsb is_getUser before = true
                /\ ~ In Cleanup before).
    { intros H. destruct (IH H) as (before & after & -> & Hget & Hno).
      exists before, (after ++ [e])%list. now rewrite app_assoc. }
    destruct e as [u err|s|]; simpl.
    + destruct (mounted (run initial events)) eqn:Hm; auto.
      intros _. exists (events ++ [GetUserResolved u err])%list, [].
      rewrite app_nil_r. split; auto. split.
      * rewrite existsb_app. simpl. now rewrite orb_true_r.
      * apply not_in_snoc; [now apply mounted_iff_no_cleanup | discriminate].
    + now destruct (subscribed (run initial events)).
    + auto.
  - intros (before & after & -> & Hget & Hno). rewrite run_app.
    apply loading_stays_false. clear after.
    induction before as [|e before IH] using rev_ind; [discriminate|].
    rewrite run_app. simpl.
    assert (Hb : ~ In Cleanup before) by (intros H; apply Hno, in_or_app; auto).
    destruct e as [u err|s|]; simpl.
    + apply mounted_iff_no_cleanup in Hb. now rewrite Hb.
    + rewrite existsb_app in Hget. simpl in Hget. rewrite !orb_false_r in Hget.
      destruct (subscribed _); simpl; auto.
    + exfalso. apply Hno, in_or_app. right. now left.
Qed.

(** After the cleanup nothing reaches the provider's state: whatever events
    follow (a late answer of [getUser], auth changes), [session], [user]
    and [loading] stay what they were when the cleanup ran. *)
Theorem auth_frozen_after_cleanup (st : State) (events : list Event) :
  run (step st Cleanup) events = step st Cleanup.
Proof.
  assert (H : forall st', mounted st' = false -> subscribed st' = false ->
                          run st' events = st').
  { induction events as [|e events IH]; intros st' Hm Hs; auto.
    simpl. assert (Hstep : step st' e = st').
    { destruct e as [u err|s|]; simpl.
      - now rewrite Hm.
      - now rewrite Hs.
      - destruct st'; simpl in *; now subst. }
    rewrite Hstep. now apply IH. }
  now apply H.
Qed.

End AuthProvider.
